(** * WatchVine product search: keyword search, vector search, pagination

    A shallow embedding of the search core of the WhatsApp catalogue bot:
    - [text_search_api.py]: brand normalisation, keyword search, price-range
      search and the image-list endpoint;
    - [gemini_vector_search.py]: vector and hybrid search;
    - [main.py]: the batch sender and the "show more" guard of the webhook.

    Text is modelled as [string] over ASCII: characters above 127 are
    neither whitespace nor cased.  Prices sent by callers and stored as
    numbers are finite doubles, on which the code only ever compares; they
    are modelled as rationals. *)

From Stdlib Require Import String Ascii List Bool Arith ZArith QArith Lia.
From Stdlib Require Import Numbers.DecimalString Sorting.Sorted.
Import ListNotations.
Close Scope Q_scope.
Open Scope string_scope.

(** ** Python string operations used by the code *)

Module PyStr.

(** [str.isspace] on ASCII: tab, LF, VT, FF, CR, FS, GS, RS, US, space. *)
Definition is_space (c : ascii) : bool :=
  let n := nat_of_ascii c in
  (((9 <=? n) && (n <=? 13)) || ((28 <=? n) && (n <=? 32)))%nat.

Definition lower_char (c : ascii) : ascii :=
  let n := nat_of_ascii c in
  if ((65 <=? n) && (n <=? 90))%nat then ascii_of_nat (n + 32) else c.

(** [s.lower()] *)
Fixpoint lower (s : string) : string :=
  match s with
  | EmptyString => EmptyString
  | String c t => String (lower_char c) (lower t)
  end.

Fixpoint lstrip (s : string) : string :=
  match s with
  | EmptyString => EmptyString
  | String c t => if is_space c then lstrip t else s
  end.

Fixpoint rstrip (s : string) : string :=
  match s with
  | EmptyString => EmptyString
  | String c t =>
      match rstrip t with
      | EmptyString => if is_space c then EmptyString else String c EmptyString
      | t' => String c t'
      end
  end.

(** [s.strip()] *)
Definition strip (s : string) : string := rstrip (lstrip s).

(** [s.split()]: maximal runs of non-whitespace, in order. [cur] is the
    token being read. *)
Fixpoint split_from (cur : string) (s : string) : list string :=
  match s with
  | EmptyString => match cur with EmptyString => [] | _ => [cur] end
  | String c t =>
      if is_space c
      then match cur with
           | EmptyString => split_from EmptyString t
           | _ => cur :: split_from EmptyString t
           end
      else split_from (cur ++ String c EmptyString) t
  end.

Definition split (s : string) : list string := split_from EmptyString s.

(** [sub in s] *)
Fixpoint contains (sub s : string) : bool :=
  prefix sub s ||
  match s with
  | EmptyString => false
  | String _ t => contains sub t
  end.

Fixpoint last_char (s : string) : option ascii :=
  match s with
  | EmptyString => None
  | String c EmptyString => Some c
  | String _ t => last_char t
  end.

(** [s.endswith(c)] for a one-character suffix *)
Definition endswith_char (s : string) (c : ascii) : bool :=
  match last_char s with
  | Some d => Ascii.eqb c d
  | None => false
  end.

(** [s[:-1]] *)
Fixpoint drop_last (s : string) : string :=
  match s with
  | EmptyString => EmptyString
  | String _ EmptyString => EmptyString
  | String c t => String c (drop_last t)
  end.

(** [x in xs] for a list of strings *)
Definition mem (x : string) (xs : list string) : bool :=
  existsb (String.eqb x) xs.

(** [str(n)] for an [int] *)
Definition str_of_int (n : Z) : string :=
  NilEmpty.string_of_int (Z.to_int n).

End PyStr.

(** ** Return or raise *)

Module Outcome.

Inductive outcome (A : Type) : Type :=
| Returned (a : A)
| Raised.
Arguments Returned {A} a.
Arguments Raised {A}.

Definition bind {A B} (m : outcome A) (k : A -> outcome B) : outcome B :=
  match m with
  | Returned a => k a
  | Raised => Raised
  end.

(** [try: m  except Exception: return d] *)
Definition try_except {A} (m : outcome A) (d : A) : A :=
  match m with
  | Returned a => a
  | Raised => d
  end.

End Outcome.

Notation "x <- m ;; k" := (Outcome.bind m (fun x => k))
  (at level 61, m at next level, right associativity).

(** ** text_search_api.py *)

Module TextSearch.
Import PyStr Outcome.

(** The dict literal, in insertion order (the order [items()] iterates). *)
Definition BRAND_MAPPING : list (string * string) :=
  [ ("fossil", "fossi_l");
    ("tissot", "tisso_t");
    ("armani", "arman_i");
    ("tommy", "tomm_y");
    ("tommy hilfiger", "tomm_y");
    ("rolex", "role_x");
    ("rado", "rad_o");
    ("omega", "omeg_a");
    ("patek", "Patek_Philippe");
    ("patek philippe", "Patek_Philippe");
    ("patek phillips", "Patek_Philippe");
    ("hublot", "hublo_t");
    ("cartier", "cartie_r");
    ("ap", "Audemars");
    ("audemars", "Audemars");
    ("tag", "tag");
    ("tag heuer", "tag");
    ("tag huer", "tag");
    ("mk", "mic");
    ("michael kors", "mic");
    ("alix", "alix");
    ("naviforce", "naviforce");
    ("reward", "reward");
    ("ax", "ax");
    ("armani exchange", "arman_i") ].

(** [d[k]] when [k in d] *)
Fixpoint dict_get (d : list (string * string)) (k : string) : option string :=
  match d with
  | [] => None
  | (k', v) :: d' => if String.eqb k k' then Some v else dict_get d' k
  end.

(** The [for user_name, db_name in BRAND_MAPPING.items()] loop. *)
Fixpoint first_substring_match (d : list (string * string)) (keyword_lower : string)
  : option string :=
  match d with
  | [] => None
  | (user_name, db_name) :: d' =>
      if contains user_name keyword_lower || contains keyword_lower user_name
      then Some db_name
      else first_substring_match d' keyword_lower
  end.

Definition normalize_brand_name (keyword : string) : string :=
  let keyword_lower := strip (lower keyword) in
  match dict_get BRAND_MAPPING keyword_lower with
  | Some db_name => db_name
  | None =>
      match first_substring_match BRAND_MAPPING keyword_lower with
      | Some db_name => db_name
      | None => keyword
      end
  end.

Definition GENERIC_TYPES : list string :=
  ["watch"; "watches"; "shoe"; "shoes"; "bag"; "bags"; "sunglass"; "sunglasses"].

Definition is_generic_type (keyword : string) : bool :=
  mem (lower keyword) GENERIC_TYPES.

(** *** Catalogue documents *)

(** The [price] field: the scrapers store text, other writers a number;
    it may be absent. *)
Inductive price_field : Type :=
| PriceNumber (q : Q)
| PriceText (s : string)
| PriceAbsent.

Record product : Type := mkProduct {
  name : string;
  price : price_field;
  image_urls : list string;
  url : string;
  category : string;
  category_key : string
}.

(** *** The patterns of the keyword search

    Every pattern the code compiles is [re.escape(w)], possibly followed
    by [e?s?]: a sequence of literal and optional characters. *)

Inductive atom : Type :=
| Lit (c : ascii)
| Opt (c : ascii).

Definition regex : Type := list atom.

(** [re.escape(w)] read as a pattern: each character of [w], literally. *)
Definition re_escape (w : string) : regex :=
  map Lit (list_ascii_of_string w).

(** The suffix [e?s?]. *)
Definition optional_es : regex := [Opt "e"%char; Opt "s"%char].

(** Character equality under [re.IGNORECASE]. *)
Definition eqb_ignorecase (c d : ascii) : bool :=
  Ascii.eqb (lower_char c) (lower_char d).

Fixpoint match_here (r : regex) (s : string) : bool :=
  match r with
  | [] => true
  | Lit c :: r' =>
      match s with
      | String d s' => eqb_ignorecase c d && match_here r' s'
      | EmptyString => false
      end
  | Opt c :: r' =>
      match s with
      | String d s' => eqb_ignorecase c d && match_here r' s'
      | EmptyString => false
      end
      || match_here r' s
  end.

(** Unanchored search, as [$regex] does. *)
Fixpoint re_search (r : regex) (s : string) : bool :=
  match_here r s ||
  match s with
  | EmptyString => false
  | String _ s' => re_search r s'
  end.

Definition PLURALIZABLE : list string :=
  ["watch"; "shoe"; "bag"; "glass"; "sunglass"].

(** The body of [for keyword in keywords] that builds [patterns]. *)
Definition build_pattern (keyword : string) : regex :=
  if endswith_char keyword "s"%char
  then (re_escape (drop_last keyword) ++ optional_es)%list
  else if mem keyword PLURALIZABLE
       then (re_escape keyword ++ optional_es)%list
       else re_escape keyword.

(** *** The store's query language, as far as the code uses it *)

Inductive condition : Type :=
| NameRegex (r : regex)                (* {"name": {"$regex": r}} *)
| CategoryKeyIs (c : string)           (* {"category_key": c} *)
| PriceExpr (lo hi : option Q).        (* {"$expr": {"$and": [$gte.., $lte..]}} *)

(** The value of [{"$toDouble": "$price"}]. *)
Inductive double : Type :=
| DNull
| DNum (q : Q).

(** [$gte]/[$lte] in an expression follow the BSON order, in which null
    sorts below every number. *)
Definition expr_gte (d : double) (x : Q) : bool :=
  match d with
  | DNull => false
  | DNum q => Qle_bool x q
  end.

Definition expr_lte (d : double) (x : Q) : bool :=
  match d with
  | DNull => true
  | DNum q => Qle_bool q x
  end.

Definition is_nil {A} (l : list A) : bool :=
  match l with [] => true | _ => false end.

(** Python truthiness of an optional string argument. *)
Definition truthy (s : option string) : bool :=
  match s with
  | Some (String _ _) => true
  | _ => false
  end.

(** [cursor.limit(n)]: 0 means no limit, a negative [n] caps at [|n|]. *)
Definition cursor_limit (n : Z) : option nat :=
  if (n =? 0)%Z then None else Some (Z.abs_nat n).

Section Store.

(** The store's conversion of a text price by [$toDouble]; [None] is a
    conversion failure, which fails the whole query. *)
Variable text_to_double : string -> option Q.

Definition toDouble (p : price_field) : outcome double :=
  match p with
  | PriceNumber q => Returned (DNum q)
  | PriceText s =>
      match text_to_double s with
      | Some q => Returned (DNum q)
      | None => Raised
      end
  | PriceAbsent => Returned DNull
  end.

Definition holds (c : condition) (p : product) : outcome bool :=
  match c with
  | NameRegex r => Returned (re_search r (name p))
  | CategoryKeyIs k => Returned (String.eqb (category_key p) k)
  | PriceExpr lo hi =>
      d <- toDouble (price p) ;;
      Returned (match lo with Some x => expr_gte d x | None => true end
                && match hi with Some x => expr_lte d x | None => true end)
  end.

(** A document matches a conjunction when every condition holds;
    conditions are tried in order and the first false one decides. *)
Fixpoint holds_all (cs : list condition) (p : product) : outcome bool :=
  match cs with
  | [] => Returned true
  | c :: cs' =>
      b <- holds c p ;;
      if b then holds_all cs' p else Returned false
  end.

(** The cursor walks the documents in store order and stops once the
    limit is reached. *)
Fixpoint scan (cs : list condition) (docs : list product) (remaining : option nat)
  : outcome (list product) :=
  match docs with
  | [] => Returned []
  | d :: ds =>
      match remaining with
      | Some O => Returned []
      | _ =>
          b <- holds_all cs d ;;
          if b
          then rest <- scan cs ds (option_map pred remaining) ;;
               Returned (d :: rest)
          else scan cs ds remaining
      end
  end.

(** [list(collection.find(query, projection).limit(n))]; the projection
    keeps every field of [product]. *)
Definition find (collection : list product) (cs : list condition) (n : Z)
  : outcome (list product) :=
  scan cs collection (cursor_limit n).

(** *** search_products_by_price_range *)

Definition search_products_by_price_range
  (collection : list product) (category : string) (min_price max_price : Q)
  (max_results : Z) : list product :=
  try_except
    (find collection
          [CategoryKeyIs (lower category);
           PriceExpr (Some min_price) (Some max_price)]
          max_results)
    [].

(** *** search_products_by_text *)

(** [[kw.strip().lower() for kw in query.strip().split()
      if len(kw.strip()) > 1]] *)
Definition query_keywords (query : string) : list string :=
  map (fun kw => lower (strip kw))
      (filter (fun kw => (1 <? String.length (strip kw))%nat)
              (split (strip query))).

(** The normalisation loop; [n_keywords] is [len(keywords)]. *)
Fixpoint essential_keywords (n_keywords : nat) (todo : list string) : list string :=
  match todo with
  | [] => []
  | keyword :: rest =>
      let normalized := normalize_brand_name keyword in
      if is_generic_type normalized && (1 <? n_keywords)%nat
      then essential_keywords n_keywords rest
      else normalized :: essential_keywords n_keywords rest
  end.

Definition name_conditions (keywords : list string) : list condition :=
  map (fun keyword => NameRegex (build_pattern keyword))
      (essential_keywords (List.length keywords) keywords).

Definition category_conditions (category_filter : option string) : list condition :=
  match category_filter with
  | Some c => if truthy category_filter then [CategoryKeyIs c] else []
  | None => []
  end.

Definition price_conditions (min_price max_price : option Q) : list condition :=
  match min_price, max_price with
  | None, None => []
  | _, _ => [PriceExpr min_price max_price]
  end.

Definition search_products_by_text
  (collection : list product) (query : string) (max_results : Z)
  (category_filter : option string) (min_price max_price : option Q)
  : outcome (list product) :=
  let keywords := query_keywords query in
  if is_nil keywords && negb (truthy category_filter)
  then Returned []
  else
    let and_conditions :=
      (name_conditions keywords
       ++ category_conditions category_filter
       ++ price_conditions min_price max_price)%list in
    if is_nil and_conditions
    then Returned []
    else find collection and_conditions max_results.

(** *** POST /search/range *)

Record RangeSearchRequest : Type := mkRangeSearchRequest {
  rr_category : string;
  rr_min_price : Q;
  rr_max_price : Q;
  rr_max_results : Z
}.

(** One entry of the ["products"] list of a response. *)
Record product_data : Type := mkProductData {
  product_name : string;
  pd_price : price_field;
  product_url : string;
  images : list string;
  image_count : nat
}.

Definition format_product (p : product) : product_data :=
  mkProductData (name p) (price p) (url p) (image_urls p)
                (List.length (image_urls p)).

Inductive range_response : Type :=
| RangeHTTPException (status : nat) (detail : string)
| RangeNoMatch                                   (* 404, "no_match" *)
| RangeSuccess (products : list product_data).

(** The handler, with the number of [collection.find] calls it made. *)
Definition search_products_in_range
  (collection : list product) (request : RangeSearchRequest)
  : range_response * nat :=
  if is_nil (list_ascii_of_string (rr_category request))
     || (String.length (strip (rr_category request)) <? 2)%nat
  then (RangeHTTPException 400 "Category must be at least 2 characters", 0)
  else if negb (Qle_bool 0 (rr_min_price request))
          || negb (Qle_bool 0 (rr_max_price request))
  then (RangeHTTPException 400 "Prices must be positive", 0)
  else if negb (Qle_bool (rr_min_price request) (rr_max_price request))
  then (RangeHTTPException 400 "Min price cannot be greater than max price", 0)
  else
    let products :=
      search_products_by_price_range collection (rr_category request)
        (rr_min_price request) (rr_max_price request) (rr_max_results request) in
    match products with
    | [] => (RangeNoMatch, 1)
    | _ => (RangeSuccess (map format_product products), 1)
    end.

(** *** POST /search/images-list *)

Record SearchRequest : Type := mkSearchRequest {
  sr_query : string;
  sr_max_results : Z;
  sr_min_price : option Q;
  sr_max_price : option Q
}.

(** The HTTP download of one image, base64-encoded; [None] on failure. *)
Variable download_and_convert_to_base64 : string -> option string.

(** Results are kept in request order; a download is kept only [if
    result:], so a failure and an empty string are both dropped. *)
Fixpoint download_all_images_parallel (image_urls : list string) : list string :=
  match image_urls with
  | [] => []
  | u :: us =>
      match download_and_convert_to_base64 u with
      | Some (String c b) => String c b :: download_all_images_parallel us
      | _ => download_all_images_parallel us
      end
  end.

Record image_mapping : Type := mkImageMapping {
  im_product_name : string;
  im_price : price_field;
  im_product_url : string;
  start_index : nat;
  im_image_count : nat
}.

(** The first loop: [all_image_urls] grows, products without image URLs
    get no mapping entry. *)
Fixpoint collect_images (products : list product) (all_image_urls : list string)
  : list image_mapping * list string :=
  match products with
  | [] => ([], all_image_urls)
  | p :: ps =>
      match image_urls p with
      | [] => collect_images ps all_image_urls
      | _ =>
          let entry := mkImageMapping (name p) (price p) (url p)
                         (List.length all_image_urls)
                         (List.length (image_urls p)) in
          let '(entries, urls) :=
            collect_images ps (all_image_urls ++ image_urls p)%list in
          (entry :: entries, urls)
      end
  end.

Record image_product : Type := mkImageProduct {
  ip_product_name : string;
  ip_price : price_field;
  ip_product_url : string;
  images_base64 : list string;
  total_images : nat
}.

(** The second loop: the slice [start_idx, end_idx) of the downloaded
    images, clipped to their number; an empty slice drops the product. *)
Fixpoint attach_images (mapping : list image_mapping) (base64_images : list string)
  : list image_product :=
  match mapping with
  | [] => []
  | m :: ms =>
      let product_images :=
        firstn (im_image_count m) (skipn (start_index m) base64_images) in
      match product_images with
      | [] => attach_images ms base64_images
      | _ =>
          mkImageProduct (im_product_name m) (im_price m) (im_product_url m)
                         product_images (List.length product_images)
          :: attach_images ms base64_images
      end
  end.

Inductive images_response : Type :=
| ImagesHTTPException (status : nat) (detail : string)
| ImagesNoMatch                                   (* 200, "no_match" *)
| ImagesSuccess (products : list image_product) (n_images : nat).

(** The category filter is always [None] here: the request model has no
    such field.  A store failure is not caught by the handler. *)
Definition search_and_get_images
  (collection : list product) (request : SearchRequest)
  : outcome images_response :=
  if is_nil (list_ascii_of_string (sr_query request))
     || (String.length (strip (sr_query request)) <? 2)%nat
  then Returned (ImagesHTTPException 400 "Query must be at least 2 characters")
  else
    products <- search_products_by_text collection (sr_query request)
                  (sr_max_results request) None
                  (sr_min_price request) (sr_max_price request) ;;
    match products with
    | [] => Returned ImagesNoMatch
    | _ =>
        let '(mapping, all_image_urls) := collect_images products [] in
        let base64_images := download_all_images_parallel all_image_urls in
        Returned (ImagesSuccess (attach_images mapping base64_images)
                                (List.length base64_images))
    end.

End Store.

(** A store conversion for worked examples: unsigned decimal notation,
    [digits] or [digits.digits]. *)
Fixpoint split_at_dot (s : string) : string * option string :=
  match s with
  | EmptyString => (EmptyString, None)
  | String c t =>
      if Ascii.eqb c "."%char then (EmptyString, Some t)
      else let '(a, b) := split_at_dot t in (String c a, b)
  end.

Definition plain_decimal (s : string) : option Q :=
  let '(whole, frac) := split_at_dot s in
  match whole, NilEmpty.uint_of_string whole with
  | String _ _, Some w =>
      match frac with
      | None => Some (inject_Z (Z.of_uint w))
      | Some f =>
          match f, NilEmpty.uint_of_string f with
          | String _ _, Some d =>
              let scale := Pos.pow 10 (Pos.of_nat (String.length f)) in
              Some (Qmake (Z.of_uint w * Zpos scale + Z.of_uint d) scale)
          | _, _ => None
          end
      end
  | _, _ => None
  end.

End TextSearch.

(** ** gemini_vector_search.py *)

Module VectorSearch.
Import PyStr Outcome.

(** The fields of a catalogue document that the pipelines match on or
    project; the stored embedding and the other fields are dropped by
    [$project]. *)
Record doc : Type := mkDoc {
  name : string;
  brand : option string;
  price : TextSearch.price_field;
  image_urls : list string;
  url : string;
  colors : list string;
  styles : list string;
  materials : list string;
  belt_type : option string;
  ai_category : option string;
  ai_gender_target : option string;
  description : string
}.

(** A projected document with its [vectorSearchScore]. *)
Definition search_result : Type := (doc * Q)%type.

(** The [filters] dict; a key that is absent is [None]. *)
Record search_filters : Type := mkFilters {
  f_colors : option (list string);
  f_brand : option string;
  f_price_max : option Z;
  f_belt_type : option string;
  f_ai_category : option string
}.

(** The entries of [match_stage]. *)
Inductive match_condition : Type :=
| ColorsIn (cs : list string)        (* 'colors': {"$in": cs} *)
| BrandRegex (pattern : string)      (* 'brand': {"$regex": b, "$options": "i"} *)
| PriceLte (bound : string)          (* 'price': {"$lte": str(price_max)} *)
| BeltTypeIs (v : string)
| AiCategoryIs (v : string).

Definition nonempty_string (s : option string) : option string :=
  match s with
  | Some (String _ _) => s
  | _ => None
  end.

(** [if filters.get(k): match_stage[k] = ...], key by key. *)
Definition build_match_stage (filters : option search_filters) : list match_condition :=
  match filters with
  | None => []
  | Some f =>
      (match f_colors f with
       | Some (c :: cs) => [ColorsIn (c :: cs)]
       | _ => []
       end
       ++ match nonempty_string (f_brand f) with
          | Some b => [BrandRegex b]
          | None => []
          end
       ++ match f_price_max f with
          | Some p => if (p =? 0)%Z then [] else [PriceLte (str_of_int p)]
          | None => []
          end
       ++ match nonempty_string (f_belt_type f) with
          | Some v => [BeltTypeIs v]
          | None => []
          end
       ++ match nonempty_string (f_ai_category f) with
          | Some v => [AiCategoryIs v]
          | None => []
          end)%list
  end.

Definition option_string_is (o : option string) (v : string) : bool :=
  match o with
  | Some s => String.eqb s v
  | None => false
  end.

Section Collaborators.

(** [genai.embed_content(...)['embedding']]; may raise. *)
Variable embed_content : string -> outcome (list Q).

(** The store's [$vectorSearch] stage: query vector, [numCandidates],
    [limit]; the documents it returns carry their similarity score. *)
Variable vectorSearch : list Q -> Z -> Z -> outcome (list search_result).

(** The store's case-insensitive regex search: pattern, subject. *)
Variable regex_search_i : string -> string -> bool.

Definition generate_text_embedding (text : string) : list Q :=
  try_except (embed_content text) [].

(** A [$match] entry against a document.  A query comparison with a
    string bound only matches string values, in byte order. *)
Definition satisfies (c : match_condition) (d : doc) : bool :=
  match c with
  | ColorsIn cs => existsb (fun x => mem x cs) (colors d)
  | BrandRegex b =>
      match brand d with
      | Some s => regex_search_i b s
      | None => false
      end
  | PriceLte bound =>
      match price d with
      | TextSearch.PriceText s => String.leb s bound
      | _ => false
      end
  | BeltTypeIs v => option_string_is (belt_type d) v
  | AiCategoryIs v => option_string_is (ai_category d) v
  end.

Definition match_stage_filter (stage : list match_condition)
  (rs : list search_result) : list search_result :=
  filter (fun r => forallb (fun c => satisfies c (fst r)) stage) rs.

(** [{"$limit": n}]: the store rejects a limit that is not positive. *)
Definition limit_stage (n : Z) (rs : list search_result)
  : outcome (list search_result) :=
  if (n <=? 0)%Z then Raised else Returned (firstn (Z.to_nat n) rs).

Definition vector_search (query : string) (limit : Z) : list search_result :=
  try_except
    (let query_embedding := generate_text_embedding query in
     if TextSearch.is_nil query_embedding
     then Returned []
     else vectorSearch query_embedding 100 limit)
    [].

Definition hybrid_search (query : string) (filters : option search_filters)
  (limit : Z) : list search_result :=
  try_except
    (let query_embedding := generate_text_embedding query in
     if TextSearch.is_nil query_embedding
     then Returned []
     else
       let match_stage := build_match_stage filters in
       candidates <- vectorSearch query_embedding 200 (limit * 3)%Z ;;
       limit_stage limit
         (if TextSearch.is_nil match_stage
          then candidates
          else match_stage_filter match_stage candidates))
    [].

End Collaborators.

End VectorSearch.

(** ** main.py *)

Module Main.
Import PyStr Outcome.

Section Collaborators.

Variable text_to_double : string -> option Q.
Variable download_and_convert_to_base64 : string -> option string.

(** The catalogue behind the search service. *)
Variable collection : list TextSearch.product.

(** [whatsapp.forward_media_with_base64] of a product's first image with
    its caption: did the delivery succeed? *)
Variable forward_media_with_base64 : TextSearch.image_product -> bool.

(** [all_products[start:end]] *)
Definition slice {A} (l : list A) (start stop : nat) : list A :=
  firstn (stop - start) (skipn start l).

Definition send_single_product (p : TextSearch.image_product) : bool :=
  match TextSearch.images_base64 p with
  | [] => false
  | _ => forward_media_with_base64 p
  end.

(** The call of the search service and the batch delivery.  The service
    request has no category field, so [category_key] does not reach the
    query; the service is taken to be reachable. *)
Definition send_product_images_v2
  (keyword : string) (start_index batch_size : nat)
  (min_price max_price : option Q) (category_key : option string)
  : bool * nat * nat :=
  if TextSearch.is_nil (list_ascii_of_string keyword)
     || (String.length (strip keyword) <? 2)%nat
  then (false, 0, 0)
  else
    match TextSearch.search_and_get_images text_to_double
            download_and_convert_to_base64 collection
            (TextSearch.mkSearchRequest keyword 50 min_price max_price) with
    | Returned (TextSearch.ImagesSuccess (p :: ps) _) =>
        let all_products := p :: ps in
        let total_found := List.length all_products in
        let end_index := Nat.min (start_index + batch_size) total_found in
        let products_to_send := slice all_products start_index end_index in
        let success_count :=
          List.length (filter send_single_product products_to_send) in
        (true, total_found, success_count)
    | _ => (false, 0, 0)
    end.

End Collaborators.

(** *** The "show more" guard of the webhook

    The handling of a text message for a phone number that has no
    question flow pending in [orchestrator.user_states]. *)

Record search_context : Type := mkContext {
  keyword : string;
  sent_count : nat;
  total_found : nat;
  ctx_min_price : option Q;
  ctx_max_price : option Q;
  ctx_category_key : option string
}.

Inductive message : Type :=
| SeenAll (total : nat) (keyword : string)   (* "you've seen all ..." *)
| OtherText.

Inductive event : Type :=
| AnalyzeMessage
| SendMessage (m : message)
| SendProductImages (keyword : string) (start_index batch_size : nat)
| SaveSearchContext (keyword : string) (total_found sent_count : nat)
| RunHandler (action : string).

(** The actions the chain of [if action == ...] after the guard handles. *)
Definition HANDLED_ACTIONS : list string :=
  ["show_all_brands"; "find_product"; "ask_category_selection";
   "find_product_by_range"; "send_all_images"; "ai_chat"; "ai_response";
   "save_order_direct"; "save_data_to_google_sheet"].

Definition dispatch (action : string) : list event :=
  if mem action HANDLED_ACTIONS then [RunHandler action] else [].

Section Webhook.

(** What [orchestrator.analyze_message] answers for the message. *)
Variable action : string.

(** What [send_product_images_v2] returns for the next batch. *)
Variable next_batch :
  string -> nat -> nat -> option Q -> option Q -> option string
  -> bool * nat * nat.

Definition handle_text (search_ctx : option search_context) : list event :=
  match search_ctx with
  | Some ctx =>
      if (sent_count ctx <? total_found ctx)%nat
      then
        AnalyzeMessage ::
        (if String.eqb action "show_more"
         then
           if (total_found ctx <=? sent_count ctx)%nat
           then [SendMessage (SeenAll (total_found ctx) (keyword ctx))]
           else
             let '(success, new_total, new_sent) :=
               next_batch (keyword ctx) (sent_count ctx) 10
                 (ctx_min_price ctx) (ctx_max_price ctx)
                 (ctx_category_key ctx) in
             SendProductImages (keyword ctx) (sent_count ctx) 10 ::
             (if success
              then [SaveSearchContext (keyword ctx) new_total
                      (sent_count ctx + new_sent)]
              else [])
         else dispatch action)
      else AnalyzeMessage :: dispatch action
  | None => AnalyzeMessage :: dispatch action
  end.

End Webhook.

End Main.

(** ** Vocabulary of the statements and worked catalogues *)

Module Examples.
Import PyStr Outcome TextSearch.

(** The keyword tokens of a query after both steps: length filter, then
    brand normalisation with generic-type elision. *)
Definition effective_keywords (query : string) : list string :=
  essential_keywords (List.length (query_keywords query)) (query_keywords query).

(** No text price of the catalogue fails to convert. *)
Definition prices_convert (text_to_double : string -> option Q)
  (collection : list product) : Prop :=
  forall p, In p collection -> toDouble text_to_double (price p) <> Raised.

(** The numeric price of [p] exists and lies in [[lo, hi]]. *)
Definition in_price_range (text_to_double : string -> option Q)
  (lo hi : Q) (p : product) : Prop :=
  exists q, toDouble text_to_double (price p) = Returned (DNum q)
            /\ (lo <= q)%Q /\ (q <= hi)%Q.

(** Keys and values of the brand table. *)
Definition table_entries : list string :=
  (map fst BRAND_MAPPING ++ map snd BRAND_MAPPING)%list.

Definition has_image_urls (p : product) : bool :=
  negb (is_nil (image_urls p)).

Definition classic_watch : product :=
  mkProduct "Classic Watch" (PriceText "1500") ["https://img/classic-1.jpg"]
            "https://shop/classic" "Men's Watches" "mens_watch".

Definition rolex_watch : product :=
  mkProduct "Role_x Submariner" (PriceText "2000") ["https://img/rolex-1.jpg"]
            "https://shop/rolex" "Men's Watches" "mens_watch".

Definition rolex_sunglasses : product :=
  mkProduct "Role_x Aviator" (PriceText "900") ["https://img/rolex-sg.jpg"]
            "https://shop/rolex-sg" "Ladies' Sunglasses" "womens_sunglasses".

Definition leather_strap : product :=
  mkProduct "Leather Strap" (PriceText "300") ["https://img/strap.jpg"]
            "https://shop/strap" "Men's Watches" "mens_watch".

Definition audemars_watch : product :=
  mkProduct "Audemars Royal Oak" (PriceText "5000") ["https://img/ap.jpg"]
            "https://shop/ap" "Men's Watches" "mens_watch".

Definition fossil_no_image : product :=
  mkProduct "Fossi_l Grant" (PriceText "1200") []
            "https://shop/grant" "Men's Watches" "mens_watch".

Definition fossil_with_image : product :=
  mkProduct "Fossi_l Neutra" (PriceText "1300") ["https://img/neutra.jpg"]
            "https://shop/neutra" "Men's Watches" "mens_watch".

(** A sixty-product catalogue of one brand. *)
Definition sixty_fossils : list product := repeat fossil_with_image 60.

(** Every download succeeds and every delivery succeeds. *)
Definition download_ok (image_url : string) : option string := Some image_url.
Definition delivery_ok (_ : image_product) : bool := true.

Definition expensive_doc : VectorSearch.doc :=
  VectorSearch.mkDoc "Fossi_l Grant Chronograph" (Some "fossi_l")
    (PriceText "10000") ["https://img/grant.jpg"] "https://shop/grant"
    ["black"] ["classic"] ["leather"] (Some "leather_belt")
    (Some "mens_watch") (Some "mens") "chronograph".

Definition price_ceiling_2000 : VectorSearch.search_filters :=
  VectorSearch.mkFilters None None (Some 2000%Z) None None.

(** An embedding service that answers, one that is down, one that answers
    with no vector. *)
Definition unit_embedding (_ : string) : outcome (list Q) := Returned [1%Q].
Definition embedding_down (_ : string) : outcome (list Q) := Raised.
Definition embedding_empty (_ : string) : outcome (list Q) := Returned [].

(** A vector stage that answers with a fixed candidate list. *)
Definition fixed_candidates (rs : list VectorSearch.search_result)
  (_ : list Q) (_ _ : Z) : outcome (list VectorSearch.search_result) :=
  Returned rs.

Definition exhausted_context : Main.search_context :=
  Main.mkContext "fossil" 3 3 None None (Some "mens_watch").

End Examples.

(** ** Reading the keyword search as a filter *)

Module SearchVocabulary.
Import PyStr Outcome TextSearch.

(** What a keyword's pattern looks for in a name: the keyword, less a
    final "s". *)
Definition pattern_stem (keyword : string) : string :=
  if endswith_char keyword "s"%char then drop_last keyword else keyword.

(** [w.lower() in s.lower()] *)
Definition contains_ignorecase (w s : string) : bool :=
  contains (lower w) (lower s).

Definition name_has_keywords (keywords : list string) (p : product) : bool :=
  forallb (fun k => contains_ignorecase (pattern_stem k) (name p)) keywords.

Definition category_is (category_filter : option string) (p : product) : bool :=
  match category_filter with
  | Some c => if truthy category_filter then String.eqb (category_key p) c else true
  | None => true
  end.

(** The price test: no bound asks nothing; a bound needs a price that
    converts. *)
Definition price_within (text_to_double : string -> option Q)
  (lo hi : option Q) (p : product) : bool :=
  match lo, hi with
  | None, None => true
  | _, _ =>
      match toDouble text_to_double (price p) with
      | Returned d =>
          match lo with Some x => expr_gte d x | None => true end
          && match hi with Some x => expr_lte d x | None => true end
      | Raised => false
      end
  end.

(** The verdict of the store on a document, a failure counting as "no". *)
Definition accepted (text_to_double : string -> option Q)
  (cs : list condition) (p : product) : bool :=
  match holds_all text_to_double cs p with
  | Returned b => b
  | Raised => false
  end.

(** The first documents a cursor limited by [n] delivers. *)
Definition take_limit {A} (n : Z) (l : list A) : list A :=
  match cursor_limit n with
  | None => l
  | Some k => firstn k l
  end.

(** A string of whitespace only. *)
Fixpoint is_blank (s : string) : bool :=
  match s with
  | EmptyString => true
  | String c t => is_space c && is_blank t
  end.

(** Did the download of the image give a non-empty text? *)
Definition downloads (download : string -> option string) (u : string) : bool :=
  match download u with
  | Some (String _ _) => true
  | _ => false
  end.

(** The answer entry of a product whose images were all downloaded. *)
Definition answered_product (download : string -> option string) (p : product)
  : image_product :=
  let images :=
    map (fun u => match download u with Some b => b | None => EmptyString end)
        (image_urls p) in
  mkImageProduct (name p) (price p) (url p) images (List.length images).

End SearchVocabulary.

(** ** More worked catalogues *)

Module MoreExamples.
Import PyStr Outcome TextSearch Examples.

Definition unpriced_watch : product :=
  mkProduct "Tisso_t PRX" (PriceText "call us") ["https://img/prx.jpg"]
            "https://shop/prx" "Men's Watches" "mens_watch".

Definition fossil_second : product :=
  mkProduct "Fossi_l Minimalist" (PriceText "1400")
            ["https://img/minimalist-1.jpg"; "https://img/minimalist-2.jpg"]
            "https://shop/minimalist" "Men's Watches" "mens_watch".

Definition two_fossils : list product :=
  [fossil_with_image; fossil_no_image; fossil_second].

(** Is the event the "you've seen all" message? *)
Definition is_exhaustion_notice (e : Main.event) : bool :=
  match e with
  | Main.SendMessage (Main.SeenAll _ _) => true
  | _ => false
  end.

(** One of two products already shown. *)
Definition pending_context : Main.search_context :=
  Main.mkContext "fossil" 1 2 None None (Some "mens_watch").

End MoreExamples.

(** ** main.py: category detection and message delivery *)

Module Delivery.
Import PyStr Outcome.

(** [s.replace(c, "")] for a one-character [c] *)
Fixpoint remove_char (c : ascii) (s : string) : string :=
  match s with
  | EmptyString => EmptyString
  | String d t => if Ascii.eqb d c then remove_char c t else String d (remove_char c t)
  end.

(** The dict of [detect_category_from_query], in insertion order. *)
Definition category_map : list (string * list string) :=
  [ ("mens_watch", ["men watch"; "mens watch"; "gent watch"; "boy watch"]);
    ("womens_watch", ["ladies watch"; "womens watch"; "women watch";
                      "girl watch"; "lady watch"]);
    ("mens_sunglasses", ["men sunglass"; "mens sunglass"; "men glass"]);
    ("womens_sunglasses", ["ladies sunglass"; "womens sunglass"; "women sunglass"]);
    ("wallet", ["wallet"; "purse"]);
    ("handbag", ["bag"; "handbag"; "hand bag"]);
    ("mens_shoes", ["men shoe"; "mens shoe"; "gent shoe"]);
    ("womens_shoes", ["ladies shoe"; "womens shoe"; "women shoe"]);
    ("loafers", ["loafer"; "formal shoe"]);
    ("flipflops", ["flipflop"; "flip flop"; "slipper"]);
    ("bracelet", ["bracelet"; "jewellery"; "jewelry"]) ].

(** The inner loop: is some keyword of the list in the query? *)
Fixpoint any_keyword_in (keywords : list string) (query_lower : string) : bool :=
  match keywords with
  | [] => false
  | keyword :: rest =>
      if contains keyword query_lower then true else any_keyword_in rest query_lower
  end.

(** The outer loop over [category_map.items()]. *)
Fixpoint first_category (m : list (string * list string)) (query_lower : string)
  : option string :=
  match m with
  | [] => None
  | (category_key, keywords) :: m' =>
      if any_keyword_in keywords query_lower
      then Some category_key
      else first_category m' query_lower
  end.

Definition detect_category_from_query (query : string) : option string :=
  let query_lower := lower query in
  match first_category category_map query_lower with
  | Some category_key => Some category_key
  | None => if contains "watch" query_lower then Some "mens_watch" else None
  end.

(** The recipient number as [send_message], [forward_media_with_base64] and
    [send_media_via_url] compute it. *)
Definition phone_clean (phone_number : string) : string :=
  let cleaned :=
    remove_char " "%char (remove_char "-"%char (remove_char "+"%char phone_number)) in
  if (String.length cleaned =? 10)%nat then "91" ++ cleaned else cleaned.

(** What the retry loop of [send_message] does to the outside. *)
Inductive delivery_event : Type :=
| Post (attempt timeout : nat)
| Sleep (seconds : nat).

Section SendMessage.

(** The HTTP status answered to the POST of an attempt; [Raised] when the
    request fails. *)
Variable post : nat -> outcome nat.

Definition accepted_status (r : outcome nat) : bool :=
  match r with
  | Returned status => (status =? 200)%nat || (status =? 201)%nat
  | Raised => false
  end.

(** The body of [for attempt in range(max_retries)], from [attempt] on with
    [remaining] attempts left; the sleep is skipped after the last one. *)
Fixpoint retry_from (attempt remaining : nat) : bool * list delivery_event :=
  match remaining with
  | O => (false, [])
  | S r =>
      let this := Post attempt (15 + attempt * 15) in
      if accepted_status (post attempt)
      then (true, [this])
      else
        let '(sent, events) := retry_from (S attempt) r in
        (sent, this :: (if (0 <? r)%nat then [Sleep (2 ^ attempt)] else []) ++ events)%list
  end.

Definition send_message (max_retries : nat) : bool * list delivery_event :=
  retry_from 0 max_retries.

End SendMessage.

Definition is_post (e : delivery_event) : bool :=
  match e with Post _ _ => true | Sleep _ => false end.

End Delivery.

(** ** gemini_vector_search.py: the searchable text and the indexing pass *)

Module Indexing.
Import PyStr Outcome.

(** [s.replace(a, b)] for one-character [a] and [b] *)
Fixpoint replace_char (a b : ascii) (s : string) : string :=
  match s with
  | EmptyString => EmptyString
  | String c t => String (if Ascii.eqb c a then b else c) (replace_char a b t)
  end.

(** [product['ai_analysis'].get('additional_details', {})], each key read
    with its default. *)
Record additional_details : Type := mkDetails {
  dial_color : string;
  strap_material : string;
  watch_type : string;
  case_material : string;
  design_elements : list string
}.

(** A stored document, as the indexing pass reads and writes it: a text
    field that is absent reads as its default, the empty string; [price] is
    the text that the f-string prints.  The time stamp [indexed_at] written
    beside the embedding is left out. *)
Record stored_doc : Type := mkStored {
  doc_id : nat;
  s_name : string;
  s_brand : string;
  s_category : string;
  s_description : string;
  s_colors : list string;
  s_styles : list string;
  s_materials : list string;
  s_belt_type : string;
  s_ai_category : string;
  s_ai_gender_target : string;
  s_price_range : string;
  s_price : option string;
  s_ai_analysis : option additional_details;
  text_embedding : option (list Q);
  searchable_text : option string
}.

Definition price_phrase (d : stored_doc) : string :=
  "price " ++ match s_price d with Some p => p | None => "0" end ++ " rupees".

(** The list [text_parts], extended when the document has an analysis. *)
Definition text_parts (d : stored_doc) : list string :=
  ([ s_name d;
     s_brand d;
     s_category d;
     s_description d;
     String.concat " " (s_colors d);
     String.concat " " (s_styles d);
     String.concat " " (s_materials d);
     replace_char "_" " " (s_belt_type d);
     replace_char "_" " " (s_ai_category d);
     s_ai_gender_target d;
     s_price_range d;
     price_phrase d ]
   ++ match s_ai_analysis d with
      | Some details =>
          [ dial_color details;
            strap_material details;
            watch_type details;
            case_material details;
            String.concat " " (design_elements details) ]
      | None => []
      end)%list.

Definition nonempty (s : string) : bool :=
  match s with EmptyString => false | _ => true end.

(** [' '.join(filter(None, text_parts)).lower()] *)
Definition create_searchable_text (d : stored_doc) : string :=
  lower (String.concat " " (filter nonempty (text_parts d))).

Definition unindexed (d : stored_doc) : bool :=
  match text_embedding d with None => true | Some _ => false end.

(** The [$set] of the update. *)
Definition set_embedding (embedding : list Q) (text : string) (d : stored_doc)
  : stored_doc :=
  mkStored (doc_id d) (s_name d) (s_brand d) (s_category d) (s_description d)
           (s_colors d) (s_styles d) (s_materials d) (s_belt_type d)
           (s_ai_category d) (s_ai_gender_target d) (s_price_range d)
           (s_price d) (s_ai_analysis d) (Some embedding) (Some text).

(** [collection.update_one({"_id": id}, {"$set": ...})]: the first document
    with that id. *)
Fixpoint update_one (collection : list stored_doc) (id : nat)
  (embedding : list Q) (text : string) : list stored_doc :=
  match collection with
  | [] => []
  | d :: ds =>
      if (doc_id d =? id)%nat
      then set_embedding embedding text d :: ds
      else d :: update_one ds id embedding text
  end.

(** [range(0, stop, step)] for a positive [step] *)
Definition range_step (stop step : nat) : list nat :=
  map (fun j => j * step) (seq 0 ((stop + step - 1) / step)).

Section IndexProducts.

Variable embed_content : string -> outcome (list Q).

(** The body of [for product in batch]: the state is the collection and
    [indexed_count]. *)
Definition index_one (state : list stored_doc * nat) (product : stored_doc)
  : list stored_doc * nat :=
  let searchable := create_searchable_text product in
  match VectorSearch.generate_text_embedding embed_content searchable with
  | [] => state
  | embedding =>
      (update_one (fst state) (doc_id product) embedding searchable,
       S (snd state))
  end.

(** The pass: the final collection and [indexed_count].  A zero
    [batch_size] makes [range] raise; a negative one gives an empty range. *)
Definition index_products (collection : list stored_doc) (batch_size : Z)
  : outcome (list stored_doc * nat) :=
  let products := filter unindexed collection in
  match products with
  | [] => Returned (collection, 0)
  | _ =>
      if (batch_size =? 0)%Z then Raised
      else if (batch_size <? 0)%Z then Returned (collection, 0)
      else
        let k := Z.to_nat batch_size in
        Returned
          (fold_left
             (fun state i =>
                fold_left index_one (Main.slice products i (i + k)) state)
             (range_step (List.length products) k)
             (collection, 0))
  end.

End IndexProducts.

(** [total_products] and [indexed_products] of [get_indexing_stats]; the
    percentage, a float computed from the two, is left out. *)
Definition get_indexing_stats (collection : list stored_doc) : nat * nat :=
  (List.length collection,
   List.length (filter (fun d => negb (unindexed d)) collection)).

(** What the pass makes of one document. *)
Definition indexed_form (embed_content : string -> outcome (list Q))
  (d : stored_doc) : stored_doc :=
  if unindexed d
  then match VectorSearch.generate_text_embedding embed_content
               (create_searchable_text d) with
       | [] => d
       | embedding => set_embedding embedding (create_searchable_text d) d
       end
  else d.

(** Does the pass give the document an embedding? *)
Definition gets_indexed (embed_content : string -> outcome (list Q))
  (d : stored_doc) : bool :=
  unindexed d
  && negb (TextSearch.is_nil
             (VectorSearch.generate_text_embedding embed_content
                (create_searchable_text d))).

Definition plain_doc (id : nat) (doc_name : string) (embedding : option (list Q))
  : stored_doc :=
  mkStored id doc_name "fossil" "Men's Watches" "" ["Black"; "Silver"] [] []
           "leather_belt" "mens_watch" "mens" "" (Some "1500") None embedding None.

Definition three_docs : list stored_doc :=
  [ plain_doc 1 "Grant" None;
    plain_doc 2 "Neutra" (Some [1%Q]);
    plain_doc 3 "Minimalist" None ].

End Indexing.

(** ** enhanced_backend_tool_classifier.py: the formatted answer *)

Module Formatter.
Import PyStr Outcome.

(** The text of the f-string of the product entry: the rupee sign followed
    by the printed price. *)
Inductive rupee_text : Type :=
| Rupees (price : TextSearch.price_field).

(** One entry of ["products"]. *)
Record product_info : Type := mkInfo {
  pi_name : string;
  pi_brand : string;
  pi_price : rupee_text;
  pi_url : string;
  pi_image_url : option string;
  pi_score : Q;
  pi_colors : list string;
  pi_styles : list string;
  pi_materials : list string
}.

(** One entry of ["images_to_send"]: the price is stored as it is; the
    caption is a text made of the brand, the name, the price and the url,
    all of which the entry also holds. *)
Record image_info : Type := mkImage {
  ii_image_url : string;
  ii_product_name : string;
  ii_brand : string;
  ii_price : TextSearch.price_field;
  ii_url : string
}.

Record formatted_response : Type := mkResponse {
  products : list product_info;
  has_results : bool;
  total_found : option nat;          (* the key is absent without results *)
  images_to_send : list image_info
}.

(** [images[0] if images else None] *)
Definition first_image (images : list string) : option string :=
  match images with
  | u :: _ => Some u
  | [] => None
  end.

(** [if primary_image:] an empty URL counts as no image. *)
Definition primary_image (images : list string) : option string :=
  match first_image images with
  | Some (String c u) => Some (String c u)
  | _ => None
  end.

(** [product.get('price', '0')] *)
Definition price_or_zero (d : VectorSearch.doc) : TextSearch.price_field :=
  match VectorSearch.price d with
  | TextSearch.PriceAbsent => TextSearch.PriceText "0"
  | p => p
  end.

Definition brand_or_unknown (d : VectorSearch.doc) : string :=
  match VectorSearch.brand d with
  | Some b => b
  | None => "Unknown"
  end.

(** The body of the loop: both lists grow at their end. *)
Definition format_one
  (state : list product_info * list image_info) (r : VectorSearch.search_result)
  : list product_info * list image_info :=
  let d := fst r in
  let images_to_send :=
    match primary_image (VectorSearch.image_urls d) with
    | Some u =>
        (snd state
         ++ [mkImage u (VectorSearch.name d) (brand_or_unknown d)
               (price_or_zero d) (VectorSearch.url d)])%list
    | None => snd state
    end in
  ((fst state
    ++ [mkInfo (VectorSearch.name d) (brand_or_unknown d)
          (Rupees (price_or_zero d))
          (VectorSearch.url d) (first_image (VectorSearch.image_urls d)) (snd r)
          (VectorSearch.colors d) (VectorSearch.styles d)
          (VectorSearch.materials d)])%list,
   images_to_send).

Definition _format_product_response (search_results : list VectorSearch.search_result)
  : formatted_response :=
  match search_results with
  | [] => mkResponse [] false None []
  | _ =>
      let '(formatted_products, images) :=
        fold_left format_one (firstn 3 search_results) ([], []) in
      mkResponse formatted_products true (Some (List.length search_results)) images
  end.

(** The product entry of a result. *)
Definition info_of (r : VectorSearch.search_result) : product_info :=
  mkInfo (VectorSearch.name (fst r)) (brand_or_unknown (fst r))
    (Rupees (price_or_zero (fst r))) (VectorSearch.url (fst r))
    (first_image (VectorSearch.image_urls (fst r))) (snd r)
    (VectorSearch.colors (fst r)) (VectorSearch.styles (fst r))
    (VectorSearch.materials (fst r)).

(** The image entry of a result, when its first image URL is not empty. *)
Definition image_of (r : VectorSearch.search_result) : list image_info :=
  match primary_image (VectorSearch.image_urls (fst r)) with
  | Some u =>
      [mkImage u (VectorSearch.name (fst r)) (brand_or_unknown (fst r))
         (price_or_zero (fst r)) (VectorSearch.url (fst r))]
  | None => []
  end.

End Formatter.

(** ** Worked documents of the vector index *)

Module IndexExamples.
Import PyStr Outcome.

Definition cheap_doc : VectorSearch.doc :=
  VectorSearch.mkDoc "Fossi_l Neutra" (Some "fossi_l")
    (TextSearch.PriceText "1500") ["https://img/neutra.jpg"] "https://shop/neutra"
    ["black"] ["classic"] ["leather"] (Some "leather_belt")
    (Some "mens_watch") (Some "mens") "three-hand".

Definition silver_doc : VectorSearch.doc :=
  VectorSearch.mkDoc "Tisso_t PRX" (Some "tisso_t")
    (TextSearch.PriceText "1800") [] "https://shop/prx"
    ["silver"] ["sport"] ["steel"] (Some "metal_belt")
    (Some "mens_watch") (Some "mens") "integrated bracelet".

Definition black_filter : VectorSearch.search_filters :=
  VectorSearch.mkFilters (Some ["black"]) None None (Some "leather_belt") None.

Definition ranked_candidates : list VectorSearch.search_result :=
  [(cheap_doc, 0.9%Q); (silver_doc, 0.8%Q); (cheap_doc, 0.7%Q);
   (cheap_doc, 0.6%Q)].

(** The score order of a result list: best first. *)
Definition best_first (a b : VectorSearch.search_result) : Prop :=
  (snd b <= snd a)%Q.

End IndexExamples.

(** ** main.py: the price-range path of the webhook *)

Module RangeFlow.
Import PyStr Outcome TextSearch.


Section Flow.

Variable text_to_double : string -> option Q.
Variable collection : list product.

(** [whatsapp.forward_media] of a product's first image with its caption:
    did the delivery succeed?  (A handler without such a method makes every
    delivery fail.) *)
Variable forward_media : product_data -> bool.



End Flow.


End RangeFlow.

(** * Properties *)

Import PyStr Outcome Examples SearchVocabulary MoreExamples.

(** ** The cursor *)

Section ScanFacts.
Import TextSearch.

Variable text_to_double : string -> option Q.

Local Abbreviation holds_all := (holds_all text_to_double).
Local Abbreviation scan := (scan text_to_double).

Lemma holds_all_In (cs : list condition) (p : product) (c : condition) :
  holds_all cs p = Returned true -> In c cs ->
  holds text_to_double c p = Returned true.
Proof.
  induction cs as [|c0 cs IH]; simpl; intros H Hin; [contradiction|].
  destruct (holds text_to_double c0 p) as [b|] eqn:Hc0; simpl in H; [|discriminate].
  destruct b; [|discriminate].
  destruct Hin as [->|Hin]; auto.
Qed.

Lemma scan_sound (cs : list condition) (docs : list product) :
  forall remaining rs,
    scan cs docs remaining = Returned rs ->
    forall p, In p rs -> In p docs /\ holds_all cs p = Returned true.
Proof.
  induction docs as [|d ds IH]; simpl; intros remaining rs H p Hp.
  - injection H as <-. contradiction.
  - assert (Hstep :
      (b <- holds_all cs d ;;
       if b
       then rest <- scan cs ds (option_map pred remaining) ;; Returned (d :: rest)
       else scan cs ds remaining) = Returned rs ->
      In p (d :: ds) /\ holds_all cs p = Returned true).
    { intros H'. destruct (holds_all cs d) as [b|] eqn:Hd; simpl in H'; [|discriminate].
      destruct b.
      - destruct (scan cs ds (option_map pred remaining)) as [rest|] eqn:Hrest;
          simpl in H'; [|discriminate].
        injection H' as <-.
        destruct Hp as [<-|Hp]; [split; [now left|assumption]|].
        destruct (IH _ _ Hrest p Hp); split; [now right|assumption].
      - destruct (IH _ _ H' p Hp); split; [now right|assumption]. }
    destruct remaining as [[|n]|]; auto.
    injection H as <-. contradiction.
Qed.

Lemma scan_length (cs : list condition) (docs : list product) :
  forall n rs, scan cs docs (Some n) = Returned rs -> List.length rs <= n.
Proof.
  induction docs as [|d ds IH]; simpl; intros n rs H.
  - injection H as <-. simpl. lia.
  - destruct n as [|n]; [injection H as <-; simpl; lia|].
    destruct (holds_all cs d) as [b|] eqn:Hd; simpl in H; [|discriminate].
    destruct b.
    + destruct (scan cs ds (Some n)) as [rest|] eqn:Hrest; simpl in H; [|discriminate].
      injection H as <-. simpl. apply IH in Hrest. lia.
    + apply IH in H. lia.
Qed.

(** The cursor returns when no document makes a condition fail. *)
Lemma scan_returns (cs : list condition) (docs : list product) :
  (forall p, In p docs -> exists b, holds_all cs p = Returned b) ->
  forall remaining, exists rs, scan cs docs remaining = Returned rs.
Proof.
  induction docs as [|d ds IH]; simpl; intros Hok remaining; [eauto|].
  destruct (Hok d (or_introl eq_refl)) as [b Hb].
  assert (IH' : forall r, exists rs, scan cs ds r = Returned rs)
    by (apply IH; intros; apply Hok; now right).
  destruct remaining as [[|n]|]; eauto; rewrite Hb; simpl.
  - destruct b; [|apply IH'].
    destruct (IH' (Some n)) as [rs ->]; simpl; eauto.
  - destruct b; [|apply IH'].
    destruct (IH' None) as [rs ->]; simpl; eauto.
Qed.

(** A matching document is returned unless the limit cut the cursor. *)
Lemma scan_complete (cs : list condition) (docs : list product) :
  forall remaining rs p,
    scan cs docs remaining = Returned rs ->
    In p docs -> holds_all cs p = Returned true ->
    (forall n, remaining = Some n -> List.length rs < n) ->
    In p rs.
Proof.
  induction docs as [|d ds IH]; simpl; intros remaining rs p H Hp Hall Hlim;
    [contradiction|].
  destruct remaining as [[|n]|].
  - specialize (Hlim 0 eq_refl). lia.
  - destruct (holds_all cs d) as [b|] eqn:Hd; simpl in H; [|discriminate].
    destruct b.
    + destruct (scan cs ds (Some n)) as [rest|] eqn:Hrest; simpl in H; [|discriminate].
      injection H as <-. destruct Hp as [<-|Hp]; [now left|right].
      apply (IH _ _ _ Hrest Hp Hall). intros m Hm. injection Hm as <-.
      specialize (Hlim (S n) eq_refl). simpl in Hlim. lia.
    + destruct Hp as [<-|Hp]; [congruence|].
      apply (IH _ _ _ H Hp Hall). intros m Hm. injection Hm as <-.
      apply (Hlim (S n) eq_refl).
  - destruct (holds_all cs d) as [b|] eqn:Hd; simpl in H; [|discriminate].
    destruct b.
    + destruct (scan cs ds None) as [rest|] eqn:Hrest; simpl in H; [|discriminate].
      injection H as <-. destruct Hp as [<-|Hp]; [now left|right].
      apply (IH _ _ _ Hrest Hp Hall). intros m Hm. discriminate.
    + destruct Hp as [<-|Hp]; [congruence|].
      apply (IH _ _ _ H Hp Hall). intros m Hm. discriminate.
Qed.

End ScanFacts.

(** ** Keyword search *)

Section KeywordSearchFacts.
Import TextSearch.

Variable text_to_double : string -> option Q.

Lemma holds_all_returns (cs : list condition) (p : product) :
  toDouble text_to_double (price p) <> Raised ->
  exists b, TextSearch.holds_all text_to_double cs p = Returned b.
Proof.
  intros Hp. induction cs as [|c cs IH]; simpl; [eauto|].
  assert (Hc : exists b, holds text_to_double c p = Returned b).
  { destruct c; simpl; eauto.
    destruct (toDouble text_to_double (price p)); [simpl; eauto|congruence]. }
  destruct Hc as [b ->]; simpl. destruct b; eauto.
Qed.

Lemma find_returns (collection : list product) (cs : list condition) (n : Z) :
  prices_convert text_to_double collection ->
  exists rs, find text_to_double collection cs n = Returned rs.
Proof.
  intros Hconv. unfold find. apply scan_returns.
  intros p Hp. apply holds_all_returns. now apply Hconv.
Qed.

Lemma is_nil_app_cons {A} (l1 l2 : list A) (x : A) :
  is_nil (l1 ++ x :: l2) = false.
Proof. destruct l1; reflexivity. Qed.

Lemma truthy_nonempty (c : string) : c <> "" -> truthy (Some c) = true.
Proof. destruct c; [congruence|reflexivity]. Qed.

(** C1. A keyword search called with a category key returns only products
    whose [category_key] is exactly that key; and it does return whenever
    no stored text price fails to convert. *)
Theorem keyword_search_category_scoped
  (collection : list product) (query : string) (max_results : Z)
  (c : string) (min_price max_price : option Q) :
  c <> "" ->
  (prices_convert text_to_double collection ->
   exists results,
     search_products_by_text text_to_double collection query max_results
       (Some c) min_price max_price = Returned results)
  /\ (forall results,
        search_products_by_text text_to_double collection query max_results
          (Some c) min_price max_price = Returned results ->
        forall p, In p results -> category_key p = c).
Proof.
  intros Hc. unfold search_products_by_text.
  rewrite (truthy_nonempty c Hc), andb_false_r.
  unfold category_conditions. rewrite (truthy_nonempty c Hc).
  cbn [app]. rewrite is_nil_app_cons. split.
  - intros Hconv. now apply find_returns.
  - intros results Hfind p Hp. unfold find in Hfind.
    destruct (scan_sound _ _ _ _ _ Hfind p Hp) as [_ Hall].
    assert (Hcat : holds text_to_double (CategoryKeyIs c) p = Returned true).
    { apply (holds_all_In _ _ _ _ Hall). apply in_or_app. right. now left. }
    simpl in Hcat. injection Hcat as Hcat. now apply String.eqb_eq.
Qed.

(** A query left without keyword tokens returns the empty list when
    neither a category key nor a price bound is given. *)
Theorem unscoped_query_returns_empty
  (collection : list product) (query : string) (max_results : Z)
  (category_filter : option string) :
  effective_keywords query = [] ->
  truthy category_filter = false ->
  search_products_by_text text_to_double collection query max_results
    category_filter None None = Returned [].
Proof.
  unfold effective_keywords. intros Hkw Hcat.
  unfold search_products_by_text. rewrite Hcat.
  destruct (is_nil (query_keywords query)); [reflexivity|]. cbn [negb andb].
  unfold name_conditions. rewrite Hkw.
  assert (Hc : category_conditions category_filter = []).
  { unfold category_conditions. destruct category_filter; [|reflexivity].
    now rewrite Hcat. }
  rewrite Hc. reflexivity.
Qed.

End KeywordSearchFacts.

Import TextSearch.

Lemma keyword_search_category_scoped_witness :
  search_products_by_text plain_decimal [rolex_watch; rolex_sunglasses]
    "rolex" 10 (Some "mens_watch") None None = Returned [rolex_watch]
  /\ category_key rolex_watch = "mens_watch".
Proof.
  split; [vm_compute; reflexivity|].
  apply (proj2 (keyword_search_category_scoped plain_decimal
                  [rolex_watch; rolex_sunglasses] "rolex" 10 "mens_watch"
                  None None ltac:(discriminate)) [rolex_watch]).
  - vm_compute; reflexivity.
  - left; reflexivity.
Defined.

Lemma unscoped_query_returns_empty_witness :
  search_products_by_text plain_decimal [classic_watch; leather_strap]
    "watch watches" 10 None None None = Returned [].
Proof.
  apply (unscoped_query_returns_empty plain_decimal); vm_compute; reflexivity.
Defined.

(** With a price bound, a query whose tokens are all elided runs a
    price-only query over every category. *)
Lemma unscoped_query_price_only_counterexample :
  effective_keywords "watch watches" = []
  /\ search_products_by_text plain_decimal [classic_watch; leather_strap]
       "watch watches" 10 None (Some 0%Q) None
     = Returned [classic_watch; leather_strap].
Proof. split; vm_compute; reflexivity. Qed.

(** The early return: without a token of two characters and without a
    category the search returns the empty list, whatever the price bounds. *)
Lemma no_raw_token_returns_empty (text_to_double : string -> option Q)
  (collection : list product) (query : string) (max_results : Z)
  (category_filter : option string) (min_price max_price : option Q) :
  query_keywords query = [] ->
  truthy category_filter = false ->
  search_products_by_text text_to_double collection query max_results
    category_filter min_price max_price = Returned [].
Proof.
  intros Hk Hc. unfold search_products_by_text. now rewrite Hk, Hc.
Qed.

(** C3. The query "watch watches" is left without a keyword token by the
    elision, and has no category; with the price bound [min_price = 0] the
    search runs a price-only query and returns the catalogue, across
    categories.  The same call returns the empty list when the query has no
    token to begin with (the early return, whatever the bounds) and when no
    bound is given (the guard on the conditions): only the elided query
    with a bound slips past both. *)
Theorem elided_query_with_price_bound_returns_catalogue :
  effective_keywords "watch watches" = []
  /\ search_products_by_text plain_decimal
       [classic_watch; rolex_sunglasses; leather_strap]
       "watch watches" 10 None (Some 0%Q) None
     = Returned [classic_watch; rolex_sunglasses; leather_strap]
  /\ search_products_by_text plain_decimal
       [classic_watch; rolex_sunglasses; leather_strap]
       "watch watches" 10 None None None
     = Returned []
  /\ (forall text_to_double collection query max_results min_price max_price,
        query_keywords query = [] ->
        search_products_by_text text_to_double collection query max_results
          None min_price max_price = Returned []).
Proof.
  split; [vm_compute; reflexivity|].
  split; [vm_compute; reflexivity|].
  split; [vm_compute; reflexivity|].
  intros td collection query n lo hi Hk.
  now apply no_raw_token_returns_empty.
Qed.

(** C2. The singular query finds "Classic Watch"; the plural query compiles
    to the pattern [watchee?s?], which needs "watche" in the name, and
    finds nothing. *)
Theorem plural_query_misses_singular_name (text_to_double : string -> option Q) :
  search_products_by_text text_to_double [classic_watch] "watch" 10 None None None
  = Returned [classic_watch]
  /\ build_pattern "watches" = (re_escape "watche" ++ optional_es)%list
  /\ search_products_by_text text_to_double [classic_watch] "watches" 10 None None None
     = Returned [].
Proof. repeat split; vm_compute; reflexivity. Qed.

(** ** Brand normalisation *)

(** C4. On every key and every value of the brand table, normalising
    twice gives what normalising once gives. *)
Theorem normalize_brand_idempotent_on_table (x : string) :
  In x table_entries ->
  normalize_brand_name (normalize_brand_name x) = normalize_brand_name x.
Proof.
  intros Hx.
  assert (Hall : forallb
            (fun y => String.eqb (normalize_brand_name (normalize_brand_name y))
                                 (normalize_brand_name y))
            table_entries = true) by (vm_compute; reflexivity).
  rewrite forallb_forall in Hall. apply String.eqb_eq. now apply Hall.
Qed.

Lemma normalize_brand_idempotent_on_table_witness :
  normalize_brand_name (normalize_brand_name "fossil") = normalize_brand_name "fossil".
Proof.
  apply (normalize_brand_idempotent_on_table "fossil"). left; reflexivity.
Defined.

(** Values of the table are fixed points, keys are sent to their value. *)
Lemma normalize_brand_table_values (k v : string) :
  In (k, v) BRAND_MAPPING ->
  normalize_brand_name k = v /\ normalize_brand_name v = v.
Proof.
  intros H.
  assert (Hall : forallb
            (fun kv => String.eqb (normalize_brand_name (fst kv)) (snd kv)
                       && String.eqb (normalize_brand_name (snd kv)) (snd kv))
            BRAND_MAPPING = true) by (vm_compute; reflexivity).
  rewrite forallb_forall in Hall. specialize (Hall _ H). simpl in Hall.
  apply andb_true_iff in Hall. destruct Hall as [H1 H2].
  split; now apply String.eqb_eq.
Qed.

(** C10. "strap" is no entry of the brand table, yet the substring fallback
    sends it to the table value "Audemars" (it contains the key "ap"), and
    "vintage" to "tag"; a keyword search for "strap" then filters names by
    the brand pattern: it returns the Audemars product and not the strap. *)
Theorem substring_fallback_rewrites_plain_word :
  exists token : string,
    ~ In token table_entries
    /\ normalize_brand_name token <> token
    /\ In (normalize_brand_name token) (map snd BRAND_MAPPING)
    /\ normalize_brand_name "strap" = "Audemars"
    /\ normalize_brand_name "vintage" = "tag"
    /\ name_conditions [token] = [NameRegex (build_pattern "Audemars")]
    /\ forall text_to_double,
         search_products_by_text text_to_double [leather_strap; audemars_watch]
           token 10 None None None = Returned [audemars_watch].
Proof.
  exists "strap". split; [|split; [|split; [|split; [|split; [|split]]]]].
  - intros H.
    assert (Hm : mem "strap" table_entries = true).
    { unfold mem. apply existsb_exists. exists "strap".
      split; [assumption|apply String.eqb_refl]. }
    vm_compute in Hm. discriminate.
  - vm_compute. discriminate.
  - assert (Hm : mem (normalize_brand_name "strap") (map snd BRAND_MAPPING) = true)
      by (vm_compute; reflexivity).
    unfold mem in Hm. apply existsb_exists in Hm. destruct Hm as [y [Hy Heq]].
    apply String.eqb_eq in Heq. now rewrite Heq.
  - vm_compute; reflexivity.
  - vm_compute; reflexivity.
  - vm_compute; reflexivity.
  - intros td. vm_compute; reflexivity.
Qed.

(** ** Price-range search *)

Section RangeSearchFacts.

Variable text_to_double : string -> option Q.

Lemma price_expr_in_range (lo hi : Q) (p : product) :
  holds text_to_double (PriceExpr (Some lo) (Some hi)) p = Returned true <->
  in_price_range text_to_double lo hi p.
Proof.
  unfold in_price_range. simpl. split.
  - destruct (toDouble text_to_double (price p)) as [d|]; simpl; [|discriminate].
    intros H. injection H as H. apply andb_true_iff in H. destruct H as [H1 H2].
    destruct d as [|q]; simpl in H1, H2; [discriminate|].
    exists q. split; [reflexivity|]. split; now apply Qle_bool_iff.
  - intros [q [-> [H1 H2]]]. simpl.
    apply Qle_bool_iff in H1. apply Qle_bool_iff in H2. now rewrite H1, H2.
Qed.

Lemma range_search_sound (collection : list product) (category : string)
  (lo hi : Q) (n : Z) (p : product) :
  In p (search_products_by_price_range text_to_double collection category lo hi n) ->
  category_key p = lower category /\ in_price_range text_to_double lo hi p.
Proof.
  unfold search_products_by_price_range, find.
  destruct (scan text_to_double _ collection (cursor_limit n)) as [rs|] eqn:Hscan;
    simpl; [|contradiction].
  intros Hp. destruct (scan_sound _ _ _ _ _ Hscan p Hp) as [_ Hall]. split.
  - assert (H : holds text_to_double (CategoryKeyIs (lower category)) p = Returned true)
      by (apply (holds_all_In _ _ _ _ Hall); now left).
    simpl in H. injection H as H. now apply String.eqb_eq.
  - apply price_expr_in_range. apply (holds_all_In _ _ _ _ Hall). right. now left.
Qed.

Lemma range_search_complete (collection : list product) (category : string)
  (lo hi : Q) (n : Z) (p : product) :
  prices_convert text_to_double collection ->
  (n = 0%Z \/
   List.length (search_products_by_price_range text_to_double collection category lo hi n)
   < Z.abs_nat n) ->
  In p collection ->
  category_key p = lower category ->
  in_price_range text_to_double lo hi p ->
  In p (search_products_by_price_range text_to_double collection category lo hi n).
Proof.
  intros Hconv Hlim Hp Hcat Hrange.
  unfold search_products_by_price_range in *.
  destruct (find_returns text_to_double collection
              [CategoryKeyIs (lower category); PriceExpr (Some lo) (Some hi)] n Hconv)
    as [rs Hfind].
  rewrite Hfind in *. simpl in *. unfold find in Hfind.
  apply (scan_complete _ _ _ _ _ _ Hfind Hp).
  - apply price_expr_in_range in Hrange.
    cbn [TextSearch.holds_all]. rewrite Hrange.
    cbn [holds]. rewrite Hcat, String.eqb_refl. reflexivity.
  - unfold cursor_limit. intros m Hm. destruct Hlim as [->|Hlim]; [discriminate|].
    destruct (n =? 0)%Z; [discriminate|]. injection Hm as <-. exact Hlim.
Qed.

(** C5, as the code has it. The handler rejects [min_price > max_price]
    without calling the store; an accepted request answers with the
    formatted products of the range search, every one of which has
    [category_key] equal to the lower-cased requested category and a numeric
    price in the closed interval; and, when every stored text price converts
    and the cap does not cut the cursor, every such product is returned,
    those priced exactly at a bound included. *)
Theorem price_range_search_correct
  (collection : list product) (request : RangeSearchRequest) :
  let category := rr_category request in
  let lo := rr_min_price request in
  let hi := rr_max_price request in
  let found :=
    search_products_by_price_range text_to_double collection category lo hi
      (rr_max_results request) in
  ((hi < lo)%Q ->
   exists detail,
     search_products_in_range text_to_double collection request
     = (RangeHTTPException 400 detail, 0))
  /\ (forall products finds,
        search_products_in_range text_to_double collection request
        = (RangeSuccess products, finds) ->
        products = map format_product found /\ finds = 1)
  /\ (forall p, In p found ->
        category_key p = lower category /\ in_price_range text_to_double lo hi p)
  /\ (prices_convert text_to_double collection ->
      (rr_max_results request = 0%Z
       \/ List.length found < Z.abs_nat (rr_max_results request)) ->
      forall p, In p collection ->
        category_key p = lower category ->
        in_price_range text_to_double lo hi p ->
        In p found).
Proof.
  intros category lo hi found. split; [|split; [|split]].
  - intros Hlt. unfold search_products_in_range.
    destruct (_ || _); [eauto|]. destruct (_ || _); [eauto|].
    fold lo hi. destruct (Qle_bool lo hi) eqn:Hle; [|simpl; eauto].
    apply Qle_bool_iff in Hle. exfalso. exact (Qlt_not_le _ _ Hlt Hle).
  - intros products finds. unfold search_products_in_range.
    destruct (_ || _); [discriminate|]. destruct (_ || _); [discriminate|].
    destruct (negb _); [discriminate|]. fold category lo hi found.
    destruct found as [|p ps]; [discriminate|].
    intros H. injection H as <- <-. split; reflexivity.
  - intros p. apply range_search_sound.
  - intros Hconv Hlim p. now apply range_search_complete.
Qed.

End RangeSearchFacts.

Lemma price_range_search_correct_witness :
  (exists detail,
     search_products_in_range plain_decimal [classic_watch; rolex_watch]
       (mkRangeSearchRequest "mens_watch" 2000 1500 20)
     = (RangeHTTPException 400 detail, 0))
  /\ In classic_watch
       (search_products_by_price_range plain_decimal [classic_watch; rolex_watch]
          "mens_watch" 1500 2000 20)
  /\ In rolex_watch
       (search_products_by_price_range plain_decimal [classic_watch; rolex_watch]
          "mens_watch" 1500 2000 20).
Proof.
  pose proof (price_range_search_correct plain_decimal [classic_watch; rolex_watch]
                (mkRangeSearchRequest "mens_watch" 2000 1500 20)) as Hrej.
  pose proof (price_range_search_correct plain_decimal [classic_watch; rolex_watch]
                (mkRangeSearchRequest "mens_watch" 1500 2000 20)) as Hacc.
  cbv zeta in Hrej, Hacc. cbn [rr_category rr_min_price rr_max_price rr_max_results]
    in Hrej, Hacc.
  destruct Hrej as [Hrej _]. destruct Hacc as [_ [_ [_ Hacc]]].
  assert (Hconv : prices_convert plain_decimal [classic_watch; rolex_watch]).
  { intros p [<-|[<-|[]]]; vm_compute; discriminate. }
  split; [apply Hrej; reflexivity|].
  split; apply Hacc; try assumption.
  - right. vm_compute. lia.
  - left; reflexivity.
  - reflexivity.
  - exists 1500%Q. repeat split; vm_compute; congruence.
  - right. vm_compute. lia.
  - right; left; reflexivity.
  - reflexivity.
  - exists 2000%Q. repeat split; vm_compute; congruence.
Defined.

(** C5 as stated fails: the category is lower-cased before it is matched,
    so the products returned for "MENS_WATCH" carry the key "mens_watch". *)
Lemma price_range_category_case_counterexample :
  search_products_by_price_range plain_decimal [classic_watch] "MENS_WATCH"
    1000 2000 50 = [classic_watch]
  /\ category_key classic_watch <> "MENS_WATCH".
Proof. split; [vm_compute; reflexivity|vm_compute; discriminate]. Qed.

(** ** Slices *)

Lemma In_firstn {A} (n : nat) (l : list A) (x : A) :
  In x (firstn n l) -> In x l.
Proof.
  intros H. rewrite <- (firstn_skipn n l). apply in_or_app. now left.
Qed.

Lemma In_skipn {A} (n : nat) (l : list A) (x : A) :
  In x (skipn n l) -> In x l.
Proof.
  intros H. rewrite <- (firstn_skipn n l). apply in_or_app. now right.
Qed.

(** ** Vector and hybrid search *)

Section VectorSearchFacts.
Import VectorSearch.

Variable embed_content : string -> outcome (list Q).
Variable vectorSearch : list Q -> Z -> Z -> outcome (list search_result).
Variable regex_search_i : string -> string -> bool.

Lemma no_vector_no_embedding (query : string) :
  embed_content query = Raised \/ embed_content query = Returned [] ->
  generate_text_embedding embed_content query = [].
Proof. unfold generate_text_embedding. intros [-> | ->]; reflexivity. Qed.

(** C7. When the embedding call raises or yields no vector, [vector_search]
    and [hybrid_search] both return the empty list; their models are total
    functions into lists, so nothing is raised to the caller. *)
Theorem search_without_embedding_is_empty
  (query : string) (filters : option search_filters) (limit : Z) :
  embed_content query = Raised \/ embed_content query = Returned [] ->
  vector_search embed_content vectorSearch query limit = []
  /\ hybrid_search embed_content vectorSearch regex_search_i query filters limit = [].
Proof.
  intros H. apply no_vector_no_embedding in H.
  unfold vector_search, hybrid_search. rewrite H. split; reflexivity.
Qed.

(** What the hybrid pipeline does guarantee: at most [limit] results, each
    one a candidate of the vector stage asked for [3 * limit] documents,
    each one passing every entry of the match stage, in candidate order. *)
Lemma hybrid_search_filtered
  (query : string) (filters : option search_filters) (limit : Z) (r : search_result) :
  In r (hybrid_search embed_content vectorSearch regex_search_i query filters limit) ->
  (exists candidates,
     vectorSearch (generate_text_embedding embed_content query) 200 (limit * 3)%Z
     = Returned candidates /\ In r candidates)
  /\ forallb (fun c => satisfies regex_search_i c (fst r)) (build_match_stage filters)
     = true.
Proof.
  unfold hybrid_search.
  destruct (TextSearch.is_nil (generate_text_embedding embed_content query));
    [simpl; contradiction|].
  destruct (vectorSearch _ 200 (limit * 3)%Z) as [candidates|]; [|simpl; contradiction].
  cbn [bind]. unfold limit_stage.
  destruct (limit <=? 0)%Z; [simpl; contradiction|]. cbn [try_except].
  intros Hr. apply In_firstn in Hr.
  destruct (build_match_stage filters) as [|c cs] eqn:Hstage; cbn [TextSearch.is_nil] in Hr.
  - split; [eauto|reflexivity].
  - unfold match_stage_filter in Hr. apply filter_In in Hr. destruct Hr as [Hr Hsat].
    split; [eauto|exact Hsat].
Qed.

Lemma hybrid_search_length
  (query : string) (filters : option search_filters) (limit : Z) :
  (Z.of_nat (List.length
     (hybrid_search embed_content vectorSearch regex_search_i query filters limit))
   <= Z.max 0 limit)%Z.
Proof.
  unfold hybrid_search.
  destruct (TextSearch.is_nil _); [simpl; lia|].
  destruct (vectorSearch _ 200 (limit * 3)%Z) as [candidates|]; [|simpl; lia].
  cbn [bind]. unfold limit_stage.
  destruct (limit <=? 0)%Z eqn:Hl; [simpl; lia|]. cbn [try_except].
  apply Z.leb_gt in Hl.
  match goal with |- context [firstn ?n ?l] => pose proof (firstn_le_length n l) end.
  lia.
Qed.

End VectorSearchFacts.

Lemma search_without_embedding_is_empty_witness :
  VectorSearch.vector_search embedding_down
    (fixed_candidates [(expensive_doc, 0.9%Q)]) "black luxury watch" 5 = []
  /\ VectorSearch.hybrid_search embedding_empty
       (fixed_candidates [(expensive_doc, 0.9%Q)]) (fun _ _ => true)
       "black luxury watch" (Some price_ceiling_2000) 5 = [].
Proof.
  split.
  - apply (search_without_embedding_is_empty embedding_down
             (fixed_candidates [(expensive_doc, 0.9%Q)]) (fun _ _ => true)
             "black luxury watch" None 5).
    left; reflexivity.
  - apply (search_without_embedding_is_empty embedding_empty
             (fixed_candidates [(expensive_doc, 0.9%Q)]) (fun _ _ => true)
             "black luxury watch" (Some price_ceiling_2000) 5).
    right; reflexivity.
Defined.

(** C6. The price ceiling is compared as text: [price_max = 2000] becomes
    the bound "2000", the stored price "10000" sorts below it, and the
    product priced 10000 is returned under a ceiling of 2000. *)
Theorem hybrid_price_ceiling_compares_text (regex_search_i : string -> string -> bool) :
  VectorSearch.build_match_stage (Some price_ceiling_2000)
  = [VectorSearch.PriceLte "2000"]
  /\ VectorSearch.hybrid_search unit_embedding
       (fixed_candidates [(expensive_doc, 0.9%Q)]) regex_search_i
       "fossil watch" (Some price_ceiling_2000) 5
     = [(expensive_doc, 0.9%Q)]
  /\ toDouble plain_decimal (VectorSearch.price expensive_doc)
     = Returned (DNum 10000%Q)
  /\ ~ (10000 <= 2000)%Q.
Proof.
  split; [vm_compute; reflexivity|].
  split; [vm_compute; reflexivity|].
  split; [vm_compute; reflexivity|].
  intros H. vm_compute in H. congruence.
Qed.

(** ** The "show more" guard *)

Section WebhookFacts.
Import Main.

Variable next_batch :
  string -> nat -> nat -> option Q -> option Q -> option string -> bool * nat * nat.

(** With nothing pending the guard is skipped and the message goes to the
    ordinary dispatch. *)
Lemma exhausted_session_skips_guard (action : string) (ctx : search_context) :
  total_found ctx <= sent_count ctx ->
  handle_text action next_batch (Some ctx) = AnalyzeMessage :: dispatch action.
Proof.
  intros H. unfold handle_text.
  destruct (sent_count ctx <? total_found ctx)%nat eqn:Hlt; [|reflexivity].
  apply Nat.ltb_lt in Hlt. lia.
Qed.

(** The exhaustion message sits behind two tests that exclude each other. *)
Lemma seen_all_is_never_sent (action : string) (search_ctx : option search_context)
  (m : message) :
  ~ In (SendMessage m) (handle_text action next_batch search_ctx).
Proof.
  assert (Hd : forall a, ~ In (SendMessage m) (AnalyzeMessage :: dispatch a)).
  { intros a [H|H]; [discriminate|]. unfold dispatch in H.
    destruct (mem a HANDLED_ACTIONS); [destruct H as [H|[]]; discriminate|contradiction]. }
  unfold handle_text. destruct search_ctx as [ctx|]; [|apply Hd].
  destruct (sent_count ctx <? total_found ctx)%nat eqn:Hlt; [|apply Hd].
  destruct (String.eqb action "show_more"); [|apply Hd].
  apply Nat.ltb_lt in Hlt.
  destruct (total_found ctx <=? sent_count ctx)%nat eqn:Hle;
    [apply Nat.leb_le in Hle; lia|].
  destruct (next_batch _ _ _ _ _ _) as [[success new_total] new_sent].
  intros [H|[H|H]]; try discriminate.
  destruct success; [destruct H as [H|[]]; discriminate|contradiction].
Qed.

(** C8. With 3 of 3 products already sent, a message classified as
    [show_more] is only classified: no handler matches the action, no
    message is sent, so the exhaustion notice never goes out; the search is
    not invoked either. *)
Theorem exhausted_show_more_sends_nothing :
  handle_text "show_more" next_batch (Some exhausted_context) = [AnalyzeMessage].
Proof.
  rewrite exhausted_session_skips_guard; [reflexivity|].
  unfold exhausted_context; simpl; lia.
Qed.

End WebhookFacts.

(** ** The batch sender *)

Section BatchSenderFacts.
Import Main.

Variable text_to_double : string -> option Q.
Variable download_and_convert_to_base64 : string -> option string.
Variable collection : list product.
Variable forward_media_with_base64 : image_product -> bool.

Lemma collect_images_length (products : list product) :
  forall all_image_urls,
    List.length (fst (collect_images products all_image_urls))
    = List.length (filter has_image_urls products).
Proof.
  induction products as [|p ps IH]; intros acc; [reflexivity|].
  simpl. unfold has_image_urls at 1.
  destruct (image_urls p) as [|u us] eqn:Hu; simpl; [apply IH|].
  specialize (IH (acc ++ u :: us)%list).
  destruct (collect_images ps (acc ++ u :: us)%list) as [entries urls].
  simpl in *. now rewrite IH.
Qed.

Lemma attach_images_length (mapping : list image_mapping) (base64_images : list string) :
  List.length (attach_images mapping base64_images) <= List.length mapping.
Proof.
  induction mapping as [|m ms IH]; simpl; [lia|].
  destruct (firstn _ _); simpl; lia.
Qed.



(** The successful answers of the image-list handler. *)
Lemma images_success_inv (request : SearchRequest)
  (products : list image_product) (n_images : nat) :
  search_and_get_images text_to_double download_and_convert_to_base64 collection request
  = Returned (ImagesSuccess products n_images) ->
  exists found,
    search_products_by_text text_to_double collection (sr_query request)
      (sr_max_results request) None (sr_min_price request) (sr_max_price request)
    = Returned found
    /\ products
       = attach_images (fst (collect_images found []))
           (download_all_images_parallel download_and_convert_to_base64
              (snd (collect_images found []))).
Proof.
  unfold search_and_get_images.
  destruct (_ || _); [discriminate|].
  destruct (search_products_by_text _ _ _ _ _ _ _) as [found|]; [|discriminate].
  cbn [bind]. destruct found as [|p ps]; [discriminate|].
  destruct (collect_images (p :: ps) []) as [mapping urls] eqn:Hc.
  intros H. injection H as <- _. exists (p :: ps).
  split; [reflexivity|]. rewrite Hc. reflexivity.
Qed.






Import RangeFlow.

(** Whether a range delivery goes out; any behaviour of the handler. *)
Variable forward_media : product_data -> bool.


End BatchSenderFacts.



(** * Further properties of the search code *)

(** ** What a keyword pattern matches *)

Lemma prefix_empty (s : string) : prefix "" s = true.
Proof. destruct s; reflexivity. Qed.

Lemma prefix_String (a b : ascii) (s1 s2 : string) :
  prefix (String a s1) (String b s2) = Ascii.eqb a b && prefix s1 s2.
Proof.
  simpl. destruct (ascii_dec a b) as [->|Hne].
  - now rewrite Ascii.eqb_refl.
  - apply Ascii.eqb_neq in Hne. now rewrite Hne.
Qed.

Lemma match_here_literal (w s : string) :
  match_here (re_escape w) s = prefix (lower w) (lower s).
Proof.
  unfold re_escape. revert s. induction w as [|a w IH]; intros s; simpl.
  - symmetry. apply prefix_empty.
  - destruct s as [|b s]; [reflexivity|].
    change (lower (String b s)) with (String (lower_char b) (lower s)).
    rewrite prefix_String, IH. reflexivity.
Qed.

Lemma match_here_optional_es (s : string) : match_here optional_es s = true.
Proof. unfold optional_es. simpl. destruct s; simpl; now rewrite ?orb_true_r. Qed.

Lemma match_here_optional_suffix (r : regex) (s : string) :
  match_here (r ++ optional_es)%list s = match_here r s.
Proof.
  revert s. induction r as [|a r IH]; intros s.
  - apply match_here_optional_es.
  - destruct a as [c|c]; cbn [app match_here].
    + destruct s as [|d s]; [reflexivity|]. now rewrite IH.
    + rewrite IH. destruct s as [|d s]; [reflexivity|]. now rewrite IH.
Qed.

Lemma re_search_ext (r1 r2 : regex) :
  (forall s, match_here r1 s = match_here r2 s) ->
  forall s, re_search r1 s = re_search r2 s.
Proof.
  intros H s. induction s as [|c s IH]; simpl; rewrite H; [reflexivity|].
  now rewrite IH.
Qed.

Lemma re_search_literal (w s : string) :
  re_search (re_escape w) s = contains (lower w) (lower s).
Proof.
  induction s as [|c s IH]; simpl; rewrite match_here_literal; [reflexivity|].
  now rewrite IH.
Qed.

Lemma pattern_search_stem (keyword s : string) :
  re_search (build_pattern keyword) s
  = contains (lower (pattern_stem keyword)) (lower s).
Proof.
  unfold build_pattern, pattern_stem.
  destruct (endswith_char keyword "s"%char).
  - rewrite (re_search_ext _ _ (match_here_optional_suffix _)).
    apply re_search_literal.
  - destruct (mem keyword PLURALIZABLE).
    + rewrite (re_search_ext _ _ (match_here_optional_suffix _)).
      apply re_search_literal.
    + apply re_search_literal.
Qed.

(** X1. The pattern compiled for a keyword matches a name exactly when the
    name contains, in any letter case, the keyword without its final "s":
    the suffix [e?s?] never changes which names match. *)
Theorem build_pattern_is_substring_test (keyword s : string) :
  re_search (build_pattern keyword) s
  = contains_ignorecase (pattern_stem keyword) s.
Proof. apply pattern_search_stem. Qed.

(** ** The keyword search as a filter *)

Section FilterFacts.

Variable text_to_double : string -> option Q.

Local Abbreviation holds_all := (TextSearch.holds_all text_to_double).
Local Abbreviation scan := (TextSearch.scan text_to_double).

Lemma holds_all_app (cs1 cs2 : list condition) (p : product) :
  holds_all (cs1 ++ cs2) p
  = (b <- holds_all cs1 p ;; if b then holds_all cs2 p else Returned false).
Proof.
  induction cs1 as [|c cs1 IH]; simpl; [reflexivity|].
  destruct (holds text_to_double c p) as [b|]; simpl; [|reflexivity].
  destruct b; [apply IH|reflexivity].
Qed.

Lemma holds_all_names (keywords : list string) (p : product) :
  holds_all (map (fun k => NameRegex (build_pattern k)) keywords) p
  = Returned (name_has_keywords keywords p).
Proof.
  induction keywords as [|k ks IH]; [reflexivity|].
  cbn [map TextSearch.holds_all holds bind]. rewrite pattern_search_stem.
  unfold name_has_keywords. cbn [forallb]. unfold contains_ignorecase at 1.
  destruct (contains _ _); [apply IH|reflexivity].
Qed.

Lemma holds_all_category (category_filter : option string) (p : product) :
  holds_all (category_conditions category_filter) p
  = Returned (category_is category_filter p).
Proof.
  unfold category_conditions, category_is.
  destruct category_filter as [c|]; [|reflexivity].
  destruct (truthy (Some c)); [|reflexivity].
  simpl. destruct (String.eqb (category_key p) c); reflexivity.
Qed.

Lemma holds_all_price_true (lo hi : option Q) (p : product) :
  holds_all (price_conditions lo hi) p = Returned true ->
  price_within text_to_double lo hi p = true.
Proof.
  unfold price_conditions, price_within.
  destruct lo as [x|], hi as [y|]; try reflexivity; simpl;
    (destruct (toDouble text_to_double (price p)) as [d|]; simpl; [|discriminate]);
    intros H;
    match type of H with
    | (if ?b then _ else _) = _ => destruct b; [reflexivity|discriminate]
    end.
Qed.

Lemma holds_all_price_converts (lo hi : option Q) (p : product) :
  toDouble text_to_double (price p) <> Raised ->
  holds_all (price_conditions lo hi) p
  = Returned (price_within text_to_double lo hi p).
Proof.
  intros Hp. unfold price_conditions, price_within.
  destruct lo as [x|], hi as [y|]; try reflexivity; simpl;
    (destruct (toDouble text_to_double (price p)) as [d|]; [|congruence]); simpl;
    match goal with
    | |- (if ?b then _ else _) = _ => destruct b; reflexivity
    end.
Qed.

Lemma holds_all_query (keywords : list string) (category_filter : option string)
  (lo hi : option Q) (p : product) :
  holds_all (map (fun k => NameRegex (build_pattern k)) keywords
             ++ category_conditions category_filter
             ++ price_conditions lo hi) p
  = if name_has_keywords keywords p && category_is category_filter p
    then holds_all (price_conditions lo hi) p
    else Returned false.
Proof.
  rewrite !holds_all_app, holds_all_names, holds_all_category. simpl.
  destruct (name_has_keywords keywords p); [|reflexivity].
  destruct (category_is category_filter p); reflexivity.
Qed.

(** Without failures the cursor is a filter cut at the limit. *)
Lemma scan_exact (cs : list condition) (docs : list product) :
  (forall p, In p docs -> exists b, holds_all cs p = Returned b) ->
  forall remaining,
    scan cs docs remaining
    = Returned (match remaining with
                | None => filter (accepted text_to_double cs) docs
                | Some k => firstn k (filter (accepted text_to_double cs) docs)
                end).
Proof.
  induction docs as [|d ds IH]; intros Hok remaining.
  - destruct remaining as [[|k]|]; reflexivity.
  - assert (IH' := IH (fun p Hp => Hok p (or_intror Hp))). clear IH.
    destruct (Hok d (or_introl eq_refl)) as [b Hb].
    assert (Hacc : accepted text_to_double cs d = b)
      by (unfold accepted; now rewrite Hb).
    cbn [TextSearch.scan filter]. rewrite Hacc, Hb.
    destruct remaining as [[|k]|]; [reflexivity| |]; cbn [bind option_map pred];
      destruct b; rewrite IH'; reflexivity.
Qed.

(** One failing document on the way fails an unlimited cursor. *)
Lemma scan_raises (cs : list condition) (docs : list product) (p : product) :
  In p docs -> holds_all cs p = Raised -> scan cs docs None = Raised.
Proof.
  induction docs as [|d ds IH]; intros Hp Hr; [contradiction|].
  cbn [TextSearch.scan].
  destruct (holds_all cs d) as [b|] eqn:Hd; [|reflexivity]. cbn [bind].
  destruct Hp as [->|Hp]; [congruence|].
  specialize (IH Hp Hr). cbn [option_map]. rewrite IH.
  destruct b; reflexivity.
Qed.

Lemma effective_keywords_nonempty (query : string) :
  effective_keywords query <> [] -> is_nil (query_keywords query) = false.
Proof.
  unfold effective_keywords. destruct (query_keywords query); [|reflexivity].
  simpl. congruence.
Qed.

(** X2. Whatever a keyword search returns is a catalogue product whose name
    contains every keyword token of the query (each less a final "s", in
    any letter case), whose [category_key] is the filter when one is given,
    and whose price passes the bounds given. *)
Theorem keyword_search_results_match_query
  (collection : list product) (query : string) (max_results : Z)
  (category_filter : option string) (min_price max_price : option Q)
  (results : list product) (p : product) :
  search_products_by_text text_to_double collection query max_results
    category_filter min_price max_price = Returned results ->
  In p results ->
  In p collection
  /\ name_has_keywords (effective_keywords query) p = true
  /\ category_is category_filter p = true
  /\ price_within text_to_double min_price max_price p = true.
Proof.
  unfold search_products_by_text.
  destruct (_ && _); [intros H; injection H as <-; contradiction|].
  destruct (is_nil _); [intros H; injection H as <-; contradiction|].
  unfold find, name_conditions. fold (effective_keywords query).
  intros Hscan Hp. destruct (scan_sound _ _ _ _ _ Hscan p Hp) as [Hin Hall].
  split; [exact Hin|]. rewrite holds_all_query in Hall.
  destruct (name_has_keywords (effective_keywords query) p); [|discriminate].
  destruct (category_is category_filter p); [|discriminate]. cbn [andb] in Hall.
  repeat split. now apply holds_all_price_true.
Qed.

(** X3. When no stored text price fails to convert and the query leaves a
    keyword token or names a category, the keyword search returns exactly
    the catalogue products that pass the name, category and price tests, in
    catalogue order, cut at [|max_results|] (uncut when it is 0). *)
Theorem keyword_search_is_filter
  (collection : list product) (query : string) (max_results : Z)
  (category_filter : option string) (min_price max_price : option Q) :
  prices_convert text_to_double collection ->
  effective_keywords query <> [] \/ truthy category_filter = true ->
  search_products_by_text text_to_double collection query max_results
    category_filter min_price max_price
  = Returned
      (take_limit max_results
         (filter (fun p => name_has_keywords (effective_keywords query) p
                           && category_is category_filter p
                           && price_within text_to_double min_price max_price p)
                 collection)).
Proof.
  intros Hconv Hscope. unfold search_products_by_text.
  assert (Hguard : is_nil (query_keywords query) && negb (truthy category_filter)
                   = false).
  { destruct Hscope as [Hk|Hc].
    - now rewrite (effective_keywords_nonempty _ Hk).
    - rewrite Hc. apply andb_false_r. }
  rewrite Hguard. unfold name_conditions. fold (effective_keywords query).
  assert (Hconds : is_nil
            (map (fun keyword => NameRegex (build_pattern keyword))
                 (effective_keywords query)
             ++ category_conditions category_filter
             ++ price_conditions min_price max_price)%list = false).
  { destruct Hscope as [Hk|Hc].
    - destruct (effective_keywords query); [congruence|reflexivity].
    - unfold category_conditions. destruct category_filter as [c|]; [|discriminate].
      rewrite Hc. destruct (map _ _); reflexivity. }
  rewrite Hconds. unfold find, take_limit.
  rewrite scan_exact.
  - f_equal.
    assert (Hext : filter (accepted text_to_double
                     (map (fun keyword => NameRegex (build_pattern keyword))
                          (effective_keywords query)
                      ++ category_conditions category_filter
                      ++ price_conditions min_price max_price)%list) collection
                   = filter (fun p => name_has_keywords (effective_keywords query) p
                                      && category_is category_filter p
                                      && price_within text_to_double min_price max_price p)
                            collection).
    { apply filter_ext_in. intros p Hp. unfold accepted.
      rewrite holds_all_query, (holds_all_price_converts _ _ _ (Hconv p Hp)).
      destruct (name_has_keywords (effective_keywords query) p
                && category_is category_filter p); reflexivity. }
    rewrite Hext. destruct (cursor_limit max_results); reflexivity.
  - intros p Hp. apply holds_all_returns. now apply Hconv.
Qed.

(** X4. When no stored text price fails to convert, the range search returns
    exactly the products whose [category_key] is the lower-cased category
    and whose price lies in the closed interval, in catalogue order, cut at
    [|max_results|] (uncut when it is 0). *)
Theorem price_range_search_is_filter
  (collection : list product) (category : string) (lo hi : Q) (max_results : Z) :
  prices_convert text_to_double collection ->
  search_products_by_price_range text_to_double collection category lo hi max_results
  = take_limit max_results
      (filter (fun p => String.eqb (category_key p) (lower category)
                        && price_within text_to_double (Some lo) (Some hi) p)
              collection).
Proof.
  intros Hconv. unfold search_products_by_price_range, find, take_limit.
  rewrite scan_exact.
  - cbn [try_except].
    assert (Hext : filter (accepted text_to_double
                     [CategoryKeyIs (lower category); PriceExpr (Some lo) (Some hi)])
                     collection
                   = filter (fun p => String.eqb (category_key p) (lower category)
                                      && price_within text_to_double (Some lo) (Some hi) p)
                            collection).
    { apply filter_ext_in. intros p Hp. unfold accepted, price_within.
      specialize (Hconv p Hp). cbn [TextSearch.holds_all holds bind].
      destruct (String.eqb (category_key p) (lower category)); [|reflexivity].
      destruct (toDouble text_to_double (price p)) as [d|]; [|congruence].
      cbn [bind andb]. destruct (_ && _); reflexivity. }
    rewrite Hext. destruct (cursor_limit max_results); reflexivity.
  - intros p Hp. apply holds_all_returns. now apply Hconv.
Qed.

(** X5. One product of the requested category whose text price does not
    convert empties an uncapped range search: the store fails the query and
    the function answers with no product at all. *)
Theorem price_range_search_lost_to_bad_price
  (collection : list product) (category : string) (lo hi : Q) (p : product) :
  In p collection ->
  category_key p = lower category ->
  toDouble text_to_double (price p) = Raised ->
  search_products_by_price_range text_to_double collection category lo hi 0 = [].
Proof.
  intros Hp Hcat Hbad. unfold search_products_by_price_range, find.
  change (cursor_limit 0) with (@None nat).
  rewrite (scan_raises _ _ p Hp); [reflexivity|].
  cbn [TextSearch.holds_all holds bind]. rewrite Hcat, String.eqb_refl, Hbad.
  reflexivity.
Qed.

End FilterFacts.

Lemma worked_prices_convert :
  prices_convert plain_decimal [classic_watch; rolex_watch; rolex_sunglasses].
Proof. intros p [<-|[<-|[<-|[]]]]; vm_compute; discriminate. Qed.

Lemma keyword_search_results_match_query_witness :
  In rolex_watch [classic_watch; rolex_watch; rolex_sunglasses]
  /\ name_has_keywords (effective_keywords "rolex watch") rolex_watch = true
  /\ category_is (Some "mens_watch") rolex_watch = true
  /\ price_within plain_decimal (Some 1000%Q) None rolex_watch = true.
Proof.
  apply (keyword_search_results_match_query plain_decimal
           [classic_watch; rolex_watch; rolex_sunglasses] "rolex watch" 10
           (Some "mens_watch") (Some 1000%Q) None [rolex_watch]).
  - vm_compute; reflexivity.
  - left; reflexivity.
Defined.

Lemma keyword_search_is_filter_witness :
  search_products_by_text plain_decimal
    [classic_watch; rolex_watch; rolex_sunglasses] "rolex" 1 None None None
  = Returned
      (take_limit 1
         (filter (fun p => name_has_keywords (effective_keywords "rolex") p
                           && category_is None p
                           && price_within plain_decimal None None p)
                 [classic_watch; rolex_watch; rolex_sunglasses])).
Proof.
  apply (keyword_search_is_filter plain_decimal
           [classic_watch; rolex_watch; rolex_sunglasses] "rolex" 1 None None None).
  - exact worked_prices_convert.
  - left. vm_compute. discriminate.
Defined.

Lemma price_range_search_is_filter_witness :
  search_products_by_price_range plain_decimal
    [classic_watch; rolex_watch; rolex_sunglasses] "Mens_Watch" 1500 2000 0
  = take_limit 0
      (filter (fun p => String.eqb (category_key p) (lower "Mens_Watch")
                        && price_within plain_decimal (Some 1500%Q) (Some 2000%Q) p)
              [classic_watch; rolex_watch; rolex_sunglasses]).
Proof.
  apply (price_range_search_is_filter plain_decimal
           [classic_watch; rolex_watch; rolex_sunglasses] "Mens_Watch" 1500 2000 0).
  exact worked_prices_convert.
Defined.

Lemma price_range_search_lost_to_bad_price_witness :
  search_products_by_price_range plain_decimal
    [classic_watch; unpriced_watch; rolex_watch] "mens_watch" 1000 3000 0 = [].
Proof.
  apply (price_range_search_lost_to_bad_price plain_decimal
           [classic_watch; unpriced_watch; rolex_watch] "mens_watch" 1000 3000
           unpriced_watch).
  - right; left; reflexivity.
  - reflexivity.
  - reflexivity.
Defined.

(** ** Tokens of a query and brand normalisation *)

Lemma essential_keywords_In (n : nat) (keywords : list string) (k : string) :
  In k (essential_keywords n keywords) <->
  exists kw, In kw keywords /\ k = normalize_brand_name kw
             /\ is_generic_type k && (1 <? n)%nat = false.
Proof.
  induction keywords as [|kw kws IH]; simpl.
  - split; [contradiction|]. intros [kw [[] _]].
  - destruct (is_generic_type (normalize_brand_name kw) && (1 <? n)%nat) eqn:Hg.
    + rewrite IH. split.
      * intros [kw' [Hin Hk]]. exists kw'. split; [now right|exact Hk].
      * intros [kw' [[<-|Hin] [Hk Hng]]].
        -- subst k. congruence.
        -- exists kw'. split; [exact Hin|]. split; assumption.
    + simpl. rewrite IH. split.
      * intros [<-|[kw' [Hin Hk]]].
        -- exists kw. split; [now left|]. split; [reflexivity|exact Hg].
        -- exists kw'. split; [now right|exact Hk].
      * intros [kw' [[<-|Hin] [Hk Hng]]].
        -- left. now symmetry.
        -- right. exists kw'. split; [exact Hin|]. split; assumption.
Qed.

(** In a query of several words the loop drops the generic words and
    normalises the others. *)
Lemma essential_keywords_filter (n : nat) (keywords : list string) :
  1 < n ->
  essential_keywords n keywords
  = map normalize_brand_name
      (filter (fun kw => negb (is_generic_type (normalize_brand_name kw)))
              keywords).
Proof.
  intros Hn. apply Nat.ltb_lt in Hn.
  induction keywords as [|kw kws IH]; [reflexivity|].
  cbn [essential_keywords filter]. rewrite Hn, andb_true_r.
  destruct (is_generic_type (normalize_brand_name kw)); cbn [negb map];
    now rewrite IH.
Qed.

(** Words that are not generic are all kept, however many there are. *)
Lemma essential_keywords_keep (n : nat) (keywords : list string) :
  (forall kw, In kw keywords ->
     is_generic_type (normalize_brand_name kw) = false) ->
  essential_keywords n keywords = map normalize_brand_name keywords.
Proof.
  induction keywords as [|kw kws IH]; intros Hkeep; [reflexivity|].
  cbn [essential_keywords map].
  rewrite (Hkeep kw (or_introl eq_refl)). cbn [andb].
  now rewrite IH by (intros k Hk; apply Hkeep; now right).
Qed.

(** X6. For a query with two or more words of at least two characters, the
    generic product-type words ("watch", "bags", ...) do not take part in
    the search: it returns exactly what it returns for a query whose words
    are the remaining ones, as long as one word remains; and the tokens
    filtered on are the brand-normalised remaining words. *)
Theorem generic_words_do_not_change_results
  (text_to_double : string -> option Q) (collection : list product)
  (query query' : string) (max_results : Z) (category_filter : option string)
  (min_price max_price : option Q) :
  1 < List.length (query_keywords query) ->
  query_keywords query'
  = filter (fun kw => negb (is_generic_type (normalize_brand_name kw)))
           (query_keywords query) ->
  query_keywords query' <> [] ->
  effective_keywords query = map normalize_brand_name (query_keywords query')
  /\ search_products_by_text text_to_double collection query max_results
       category_filter min_price max_price
     = search_products_by_text text_to_double collection query' max_results
         category_filter min_price max_price.
Proof.
  intros Hn Hrest Hne.
  assert (Heff : essential_keywords (List.length (query_keywords query))
                   (query_keywords query)
                 = map normalize_brand_name (query_keywords query'))
    by (rewrite Hrest; now apply essential_keywords_filter).
  assert (Heff' : essential_keywords (List.length (query_keywords query'))
                    (query_keywords query')
                  = map normalize_brand_name (query_keywords query')).
  { apply essential_keywords_keep. intros kw Hkw. rewrite Hrest in Hkw.
    apply filter_In in Hkw. now apply negb_true_iff. }
  split; [exact Heff|].
  unfold search_products_by_text, name_conditions.
  rewrite Heff, Heff'.
  destruct (query_keywords query) as [|k ks]; [simpl in Hn; lia|].
  destruct (query_keywords query') as [|k' ks']; [congruence|].
  reflexivity.
Qed.

Lemma generic_words_do_not_change_results_witness :
  effective_keywords "rolex watch" = map normalize_brand_name (query_keywords "rolex")
  /\ search_products_by_text plain_decimal
       [classic_watch; rolex_watch; rolex_sunglasses] "rolex watch" 10
       None None None
     = search_products_by_text plain_decimal
         [classic_watch; rolex_watch; rolex_sunglasses] "rolex" 10
         None None None.
Proof.
  apply (generic_words_do_not_change_results plain_decimal
           [classic_watch; rolex_watch; rolex_sunglasses]
           "rolex watch" "rolex" 10 None None None).
  - vm_compute. lia.
  - vm_compute. reflexivity.
  - vm_compute. discriminate.
Defined.

Lemma dict_get_In (d : list (string * string)) (k v : string) :
  dict_get d k = Some v -> In v (map snd d).
Proof.
  induction d as [|[k' v'] d IH]; simpl; [discriminate|].
  destruct (String.eqb k k'); [intros H; injection H as ->; now left|].
  intros H. right. now apply IH.
Qed.

Lemma first_substring_match_In (d : list (string * string)) (k v : string) :
  first_substring_match d k = Some v -> In v (map snd d).
Proof.
  induction d as [|[k' v'] d IH]; simpl; [discriminate|].
  destruct (_ || _); [intros H; injection H as ->; now left|].
  intros H. right. now apply IH.
Qed.

Lemma normalize_range (keyword : string) :
  normalize_brand_name keyword = keyword
  \/ In (normalize_brand_name keyword) (map snd BRAND_MAPPING).
Proof.
  unfold normalize_brand_name.
  destruct (dict_get BRAND_MAPPING (strip (lower keyword))) as [v|] eqn:Hd.
  - right. now apply (dict_get_In _ _ _ Hd).
  - destruct (first_substring_match BRAND_MAPPING (strip (lower keyword)))
      as [v|] eqn:Hf.
    + right. now apply (first_substring_match_In _ _ _ Hf).
    + now left.
Qed.

(** X7. Brand normalisation returns either its argument, untouched, or a
    value of the brand table; it never makes up a token. *)
Theorem normalize_brand_name_range (keyword : string) :
  normalize_brand_name keyword = keyword
  \/ In (normalize_brand_name keyword) (map snd BRAND_MAPPING).
Proof. apply normalize_range. Qed.

(** X23. Brand normalisation is idempotent on every input, not only on the
    table: a second pass never changes what the first returned. *)
Theorem normalize_brand_name_idempotent (keyword : string) :
  normalize_brand_name (normalize_brand_name keyword)
  = normalize_brand_name keyword.
Proof.
  destruct (normalize_range keyword) as [Heq|Hin].
  - now rewrite Heq.
  - apply in_map_iff in Hin. destruct Hin as [[k v] [Hv Hkv]].
    simpl in Hv. rewrite <- Hv.
    now destruct (normalize_brand_table_values k v Hkv).
Qed.

Lemma lower_char_space (c : ascii) : is_space c = true -> lower_char c = c.
Proof.
  destruct c as [[] [] [] [] [] [] [] []]; try reflexivity; discriminate.
Qed.

Lemma blank_strips_to_empty (s : string) :
  is_blank s = true -> strip (lower s) = "".
Proof.
  unfold strip. induction s as [|c s IH]; simpl; [reflexivity|].
  intros H. apply andb_true_iff in H. destruct H as [Hc Hs].
  rewrite (lower_char_space c Hc), Hc. now apply IH.
Qed.

(** X8. A keyword of whitespace only (the empty string included) is a
    substring of every table key, so it is normalised to the value of the
    first entry of the table, "fossi_l". *)
Theorem normalize_blank_keyword (keyword : string) :
  is_blank keyword = true -> normalize_brand_name keyword = "fossi_l".
Proof.
  intros H. unfold normalize_brand_name. rewrite (blank_strips_to_empty _ H).
  reflexivity.
Qed.

Lemma normalize_blank_keyword_witness : normalize_brand_name "  " = "fossi_l".
Proof. apply normalize_blank_keyword. reflexivity. Defined.

(** ** The image-list answer *)

Section ImageListFacts.

Variable text_to_double : string -> option Q.
Variable download : string -> option string.

Local Abbreviation base64_of :=
  (fun u => match download u with Some b => b | None => EmptyString end).

Lemma collect_images_urls (products : list product) :
  forall acc, snd (collect_images products acc)
              = (acc ++ flat_map image_urls products)%list.
Proof.
  induction products as [|p ps IH]; intros acc; simpl.
  - now rewrite app_nil_r.
  - destruct (image_urls p) as [|u us] eqn:Hu; [apply IH|].
    specialize (IH (acc ++ u :: us)%list).
    destruct (collect_images ps (acc ++ u :: us)%list) as [entries urls].
    simpl in *. now rewrite IH, <- app_assoc.
Qed.

Lemma download_all_succeed (urls : list string) :
  (forall u, In u urls -> downloads download u = true) ->
  download_all_images_parallel download urls = map base64_of urls.
Proof.
  induction urls as [|u us IH]; intros H; simpl; [reflexivity|].
  pose proof (H u (or_introl eq_refl)) as Hu. unfold downloads in Hu.
  destruct (download u) as [[|c b]|]; try discriminate.
  rewrite IH; [reflexivity|]. intros v Hv. apply H. now right.
Qed.

Lemma attach_collected (products : list product) :
  forall (acc done : list string),
    List.length done = List.length acc ->
    attach_images (fst (collect_images products acc))
      (done ++ map base64_of (flat_map image_urls products))%list
    = map (answered_product download) (filter has_image_urls products).
Proof.
  induction products as [|p ps IH]; intros acc done Hlen; [reflexivity|].
  cbn [collect_images filter flat_map]. unfold has_image_urls at 1.
  destruct (image_urls p) as [|u us] eqn:Hu.
  - cbn [is_nil negb app]. now apply IH.
  - cbn [is_nil negb].
    specialize (IH (acc ++ u :: us)%list (done ++ map base64_of (u :: us))%list).
    destruct (collect_images ps (acc ++ u :: us)%list) as [entries urls].
    cbn [fst] in *. cbn [attach_images start_index im_image_count
                         im_product_name im_price im_product_url].
    assert (Hslice :
      firstn (List.length (u :: us))
        (skipn (List.length acc)
           (done ++ map base64_of ((u :: us) ++ flat_map image_urls ps)))%list
      = map base64_of (u :: us)).
    { rewrite skipn_app, <- Hlen, skipn_all, Nat.sub_diag, map_app.
      cbn [skipn app]. rewrite firstn_app, length_map, Nat.sub_diag, firstn_0,
        app_nil_r.
      rewrite <- (length_map base64_of (u :: us)). apply firstn_all. }
    rewrite Hslice. cbn [map].
    replace (done ++ map base64_of ((u :: us) ++ flat_map image_urls ps))%list
      with ((done ++ map base64_of (u :: us))
            ++ map base64_of (flat_map image_urls ps))%list
      by (rewrite map_app, app_assoc; reflexivity).
    rewrite IH by (rewrite !length_app, length_map, Hlen; reflexivity).
    unfold answered_product at 2. rewrite Hu. reflexivity.
Qed.

(** X9. When every image of the found products downloads to a non-empty
    text, the image-list answer lists exactly the found products that have
    image URLs, in search order, each with its own images in their stored
    order; products without image URLs are dropped. *)
Theorem images_list_answer_when_downloads_succeed
  (collection : list product) (request : SearchRequest) (found : list product) :
  2 <= String.length (strip (sr_query request)) ->
  search_products_by_text text_to_double collection (sr_query request)
    (sr_max_results request) None (sr_min_price request) (sr_max_price request)
  = Returned found ->
  found <> [] ->
  (forall p u, In p found -> In u (image_urls p) ->
               downloads download u = true) ->
  search_and_get_images text_to_double download collection request
  = Returned
      (ImagesSuccess
         (map (answered_product download) (filter has_image_urls found))
         (List.length (flat_map image_urls found))).
Proof.
  intros Hlen Hfound Hne Hdl. unfold search_and_get_images.
  assert (Hguard : is_nil (list_ascii_of_string (sr_query request))
                   || (String.length (strip (sr_query request)) <? 2)%nat = false).
  { apply orb_false_iff. split; [|apply Nat.ltb_ge; exact Hlen].
    destruct (sr_query request); [simpl in Hlen; lia|reflexivity]. }
  rewrite Hguard, Hfound. cbn [bind].
  destruct found as [|p ps]; [congruence|].
  pose proof (collect_images_urls (p :: ps) []) as Hurls.
  pose proof (attach_collected (p :: ps) [] [] eq_refl) as Hatt.
  destruct (collect_images (p :: ps) []) as [mapping urls].
  cbn [fst snd app map] in Hurls, Hatt. subst urls.
  rewrite download_all_succeed.
  - rewrite Hatt, length_map. reflexivity.
  - intros u Hu. apply in_flat_map in Hu. destruct Hu as [q [Hq Hu]].
    now apply (Hdl q u).
Qed.

End ImageListFacts.

Lemma images_list_answer_when_downloads_succeed_witness :
  search_and_get_images plain_decimal download_ok two_fossils
    (mkSearchRequest "fossil" 50 None None)
  = Returned
      (ImagesSuccess
         (map (answered_product download_ok) (filter has_image_urls two_fossils))
         (List.length (flat_map image_urls two_fossils))).
Proof.
  apply (images_list_answer_when_downloads_succeed plain_decimal download_ok
           two_fossils (mkSearchRequest "fossil" 50 None None) two_fossils).
  - vm_compute. lia.
  - vm_compute; reflexivity.
  - discriminate.
  - intros p u Hp Hu.
    repeat (destruct Hp as [<-|Hp];
            [repeat (destruct Hu as [<-|Hu]; [reflexivity|]); destruct Hu|]).
    destruct Hp.
Defined.

(** ** Batches and the running count *)

Section BatchFacts.
Import Main.

Variable text_to_double : string -> option Q.
Variable download : string -> option string.
Variable collection : list product.
Variable forward_media_with_base64 : image_product -> bool.

Local Abbreviation send :=
  (send_product_images_v2 text_to_double download collection
     forward_media_with_base64).

Lemma slice_length {A} (l : list A) (start stop : nat) :
  List.length (slice l start stop) <= stop - start
  /\ List.length (slice l start stop) <= List.length l - start.
Proof.
  unfold slice. rewrite length_firstn, length_skipn. lia.
Qed.

Lemma sender_bounds (keyword : string) (start_index batch_size : nat)
  (min_price max_price : option Q) (category_key : option string)
  (ok : bool) (total sent : nat) :
  send keyword start_index batch_size min_price max_price category_key
  = (ok, total, sent) ->
  sent <= batch_size
  /\ sent <= total - start_index
  /\ (ok = false -> total = 0 /\ sent = 0)
  /\ (ok = true -> 1 <= total).
Proof.
  unfold send_product_images_v2.
  set (resp := search_and_get_images _ _ _ _).
  destruct (_ || _);
    [intros H; injection H as <- <- <-; repeat split; (lia || discriminate)|].
  destruct resp as [[status detail| |answered n_images]|];
    try (intros H; injection H as <- <- <-; repeat split; (lia || discriminate)).
  destruct answered as [|a answered];
    [intros H; injection H as <- <- <-; repeat split; (lia || discriminate)|].
  intros H. injection H as <- <- <-.
  pose proof (slice_length (a :: answered) start_index
                (Nat.min (start_index + batch_size) (List.length (a :: answered))))
    as [H1 H2].
  pose proof (filter_length_le (send_single_product forward_media_with_base64)
                (slice (a :: answered) start_index
                   (Nat.min (start_index + batch_size)
                      (List.length (a :: answered))))) as H3.
  repeat split; try discriminate; simpl in *; lia.
Qed.

(** X10. A batch never counts more deliveries than the batch size; from a
    start index within the total it counts no more than the products left,
    from a start index at or past the total it counts none; a refused or
    empty search answers [(False, 0, 0)] and a success has at least one
    product. *)
Theorem send_product_images_v2_bounds (keyword : string)
  (start_index batch_size : nat) (min_price max_price : option Q)
  (category_key : option string) (ok : bool) (total sent : nat) :
  send_product_images_v2 text_to_double download collection
    forward_media_with_base64 keyword start_index batch_size
    min_price max_price category_key
  = (ok, total, sent) ->
  sent <= batch_size
  /\ (start_index <= total -> sent + start_index <= total)
  /\ (total <= start_index -> sent = 0)
  /\ (ok = false -> total = 0 /\ sent = 0)
  /\ (ok = true -> 1 <= total).
Proof.
  intros H. apply sender_bounds in H. destruct H as [H1 [H2 [H3 H4]]].
  repeat split; try lia; try (now apply H3); now apply H4.
Qed.

(** X11. The webhook saves a search context on the "show more" path only
    when a batch was pending and the action is [show_more]; the search is
    then asked for ten products from [sent_count] on, and the saved count
    grows by at most ten and stays within the new total whenever the old
    count did. *)
Theorem show_more_keeps_count_within_total
  (action : string) (ctx : search_context) (k : string) (t s : nat) :
  In (SaveSearchContext k t s) (handle_text action send (Some ctx)) ->
  action = "show_more"
  /\ sent_count ctx < total_found ctx
  /\ k = keyword ctx
  /\ In (SendProductImages k (sent_count ctx) 10) (handle_text action send (Some ctx))
  /\ sent_count ctx <= s <= sent_count ctx + 10
  /\ (sent_count ctx <= t -> s <= t).
Proof.
  assert (Hd : forall a, ~ In (SaveSearchContext k t s) (AnalyzeMessage :: dispatch a)).
  { intros a [H|H]; [discriminate|]. unfold dispatch in H.
    destruct (mem a HANDLED_ACTIONS); [destruct H as [H|[]]; discriminate|contradiction]. }
  unfold handle_text.
  destruct (sent_count ctx <? total_found ctx)%nat eqn:Hlt;
    [|intros H; now apply Hd in H].
  destruct (String.eqb action "show_more") eqn:Ha; [|intros H; now apply Hd in H].
  apply Nat.ltb_lt in Hlt. apply String.eqb_eq in Ha.
  destruct (total_found ctx <=? sent_count ctx)%nat eqn:Hle;
    [apply Nat.leb_le in Hle; lia|].
  destruct (send (keyword ctx) (sent_count ctx) 10 (ctx_min_price ctx)
              (ctx_max_price ctx) (ctx_category_key ctx))
    as [[success new_total] new_sent] eqn:Hsend.
  apply sender_bounds in Hsend. destruct Hsend as [H1 [H2 _]].
  intros [H|[H|H]]; try discriminate.
  destruct success; [|contradiction].
  destruct H as [H|[]]. injection H as <- <- <-.
  split; [exact Ha|]. split; [exact Hlt|]. split; [reflexivity|].
  split; [right; left; reflexivity|]. split; lia.
Qed.

End BatchFacts.

Lemma send_product_images_v2_bounds_witness :
  1 <= 10
  /\ (1 <= 2 -> 1 + 1 <= 2)
  /\ (2 <= 1 -> 1 = 0)
  /\ (true = false -> 2 = 0 /\ 1 = 0)
  /\ (true = true -> 1 <= 2).
Proof.
  apply (send_product_images_v2_bounds plain_decimal download_ok two_fossils
           delivery_ok "fossil" 1 10 None None (Some "mens_watch") true 2 1).
  vm_compute; reflexivity.
Defined.

Lemma show_more_keeps_count_within_total_witness :
  "show_more" = "show_more"
  /\ Main.sent_count pending_context < Main.total_found pending_context
  /\ "fossil" = Main.keyword pending_context
  /\ In (Main.SendProductImages "fossil" (Main.sent_count pending_context) 10)
        (Main.handle_text "show_more"
           (Main.send_product_images_v2 plain_decimal download_ok two_fossils
              delivery_ok)
           (Some pending_context))
  /\ Main.sent_count pending_context <= 2 <= Main.sent_count pending_context + 10
  /\ (Main.sent_count pending_context <= 2 -> 2 <= 2).
Proof.
  apply (show_more_keeps_count_within_total plain_decimal download_ok two_fossils
           delivery_ok "show_more" pending_context "fossil" 2 2).
  vm_compute. right; right; left; reflexivity.
Defined.

(** ** Substrings *)

Lemma str_app_assoc (a b c : string) : ((a ++ b) ++ c = a ++ (b ++ c))%string.
Proof. induction a as [|x a IH]; simpl; [reflexivity|now rewrite IH]. Qed.

Lemma str_app_length (a b : string) :
  String.length (a ++ b) = String.length a + String.length b.
Proof. induction a as [|x a IH]; simpl; [reflexivity|now rewrite IH]. Qed.

Lemma prefix_iff (a s : string) :
  prefix a s = true <-> exists t, s = (a ++ t)%string.
Proof.
  revert s. induction a as [|x a IH]; intros s.
  - rewrite prefix_empty. split; [intros _; now exists s|reflexivity].
  - destruct s as [|y s].
    + simpl. split; [discriminate|]. intros [t Ht]. discriminate.
    + rewrite prefix_String, andb_true_iff, Ascii.eqb_eq, IH. split.
      * intros [-> [t ->]]. now exists t.
      * intros [t Ht]. simpl in Ht. injection Ht as -> ->. split; [reflexivity|now exists t].
Qed.

Lemma contains_iff (a s : string) :
  contains a s = true <-> exists pre post, s = (pre ++ a ++ post)%string.
Proof.
  induction s as [|y s IH]; cbn [contains]; rewrite orb_true_iff, prefix_iff.
  - split.
    + intros [[t Ht]|H]; [|discriminate]. now exists "", t.
    + intros [pre [post H]]. left. destruct pre; [now exists post|discriminate].
  - rewrite IH. split.
    + intros [[t Ht]|[pre [post H]]]; [now exists "", t|].
      exists (String y pre), post. simpl. now rewrite H.
    + intros [pre [post H]]. destruct pre as [|z pre].
      * left. now exists post.
      * right. simpl in H. injection H as _ ->. now exists pre, post.
Qed.

Lemma contains_trans (a b c : string) :
  contains a b = true -> contains b c = true -> contains a c = true.
Proof.
  rewrite !contains_iff. intros [p1 [q1 ->]] [p2 [q2 ->]].
  exists (p2 ++ p1)%string, (q1 ++ q2)%string.
  now rewrite !str_app_assoc.
Qed.

(** ** Category detection *)

Import Delivery.

Ltac step_keyword :=
  match goal with
  | |- context [if contains ?k ?q then _ else _] =>
      let E := fresh "E" in destruct (contains k q) eqn:E
  end.

Ltac shadowed k1 k2 :=
  match goal with
  | E1 : contains k1 ?q = false, E2 : contains k2 ?q = true |- _ =>
      exfalso;
      assert (contains k1 q = true)
        by (apply (contains_trans k1 k2 q); [vm_compute; reflexivity|exact E2]);
      congruence
  end.

(** X12. The "women"/"womens" keywords are dead: each contains a "men"/"mens"
    keyword that is tried earlier.  A query with "women watch" or "womens
    watch" is detected as [mens_watch], and a womens category is only ever
    detected through "ladies", "girl" or "lady" wording. *)
Theorem womens_keywords_are_shadowed (query : string) :
  (contains "women watch" (lower query) = true
   \/ contains "womens watch" (lower query) = true ->
   detect_category_from_query query = Some "mens_watch")
  /\ (detect_category_from_query query = Some "womens_watch" ->
      contains "ladies watch" (lower query) = true
      \/ contains "girl watch" (lower query) = true
      \/ contains "lady watch" (lower query) = true)
  /\ (detect_category_from_query query = Some "womens_sunglasses" ->
      contains "ladies sunglass" (lower query) = true)
  /\ (detect_category_from_query query = Some "womens_shoes" ->
      contains "ladies shoe" (lower query) = true).
Proof.
  unfold detect_category_from_query, category_map.
  cbn [first_category any_keyword_in].
  generalize (lower query) as q. intros q.
  split; [|split; [|split]].
  - intros [H|H].
    + rewrite (contains_trans "men watch" "women watch" q eq_refl H). reflexivity.
    + rewrite (contains_trans "mens watch" "womens watch" q eq_refl H).
      destruct (contains "men watch" q); reflexivity.
  - repeat (step_keyword; [try discriminate|]); try discriminate; auto;
      try shadowed "mens watch" "womens watch";
      try shadowed "men watch" "women watch".
  - repeat (step_keyword; [try discriminate|]); try discriminate; auto;
      try shadowed "mens sunglass" "womens sunglass";
      try shadowed "men sunglass" "women sunglass".
  - repeat (step_keyword; [try discriminate|]); try discriminate; auto;
      try shadowed "mens shoe" "womens shoe";
      try shadowed "men shoe" "women shoe".
Qed.

Lemma first_category_In (m : list (string * list string)) (q k : string) :
  first_category m q = Some k -> In k (map fst m).
Proof.
  induction m as [|[key kws] m IH]; simpl; [discriminate|].
  destruct (any_keyword_in kws q); [intros H; injection H as ->; now left|].
  intros H. right. now apply IH.
Qed.

(** X13. A detected category is always a key of the category table, and a
    query that mentions "watch" in any letter case always gets one. *)
Theorem detect_category_range (query : string) :
  (forall k, detect_category_from_query query = Some k ->
             In k (map fst category_map))
  /\ (contains "watch" (lower query) = true ->
      detect_category_from_query query <> None).
Proof.
  unfold detect_category_from_query. split.
  - intros k. destruct (first_category category_map (lower query)) as [c|] eqn:Hc.
    + intros H. injection H as <-. now apply (first_category_In _ _ _ Hc).
    + destruct (contains "watch" (lower query)); [|discriminate].
      intros H. injection H as <-. left. reflexivity.
  - intros Hw. destruct (first_category category_map (lower query)); [discriminate|].
    rewrite Hw. discriminate.
Qed.

(** ** Recipient numbers *)

Lemma remove_char_idem (c : ascii) (s : string) :
  remove_char c (remove_char c s) = remove_char c s.
Proof.
  induction s as [|d s IH]; simpl; [reflexivity|].
  destruct (Ascii.eqb d c) eqn:E; [exact IH|]. simpl. now rewrite E, IH.
Qed.

Lemma remove_char_comm (a b : ascii) (s : string) :
  remove_char a (remove_char b s) = remove_char b (remove_char a s).
Proof.
  induction s as [|d s IH]; simpl; [reflexivity|].
  destruct (Ascii.eqb d b) eqn:Eb, (Ascii.eqb d a) eqn:Ea; simpl;
    rewrite ?Ea, ?Eb, IH; reflexivity.
Qed.

Lemma remove_char_length (c : ascii) (s : string) :
  String.length (remove_char c s) <= String.length s.
Proof.
  induction s as [|d s IH]; simpl; [lia|].
  destruct (Ascii.eqb d c); simpl; lia.
Qed.

(** The three replacements, in the order of the source. *)
Lemma separators_removed (s : string) (c : ascii) :
  c = "+"%char \/ c = "-"%char \/ c = " "%char ->
  remove_char c (remove_char " " (remove_char "-" (remove_char "+" s)))
  = remove_char " " (remove_char "-" (remove_char "+" s)).
Proof.
  intros [ -> | [ -> | -> ] ].
  - rewrite (remove_char_comm "+" " "), (remove_char_comm "+" "-").
    now rewrite remove_char_idem.
  - rewrite (remove_char_comm "-" " "). now rewrite remove_char_idem.
  - apply remove_char_idem.
Qed.

Lemma phone_clean_free (phone_number : string) (c : ascii) :
  c = "+"%char \/ c = "-"%char \/ c = " "%char ->
  remove_char c (phone_clean phone_number) = phone_clean phone_number.
Proof.
  intros Hc. unfold phone_clean.
  destruct (String.length _ =? 10)%nat.
  - assert (H91 : forall t, remove_char c ("91" ++ t) = ("91" ++ remove_char c t)%string)
      by (intros t; destruct Hc as [ -> | [ -> | -> ] ]; reflexivity).
    now rewrite H91, separators_removed.
  - now apply separators_removed.
Qed.

Lemma phone_clean_length (phone_number : string) :
  String.length (phone_clean phone_number) <> 10.
Proof.
  unfold phone_clean.
  destruct (String.length _ =? 10)%nat eqn:E.
  - apply Nat.eqb_eq in E. rewrite str_app_length, E. simpl. lia.
  - now apply Nat.eqb_neq.
Qed.

(** X14. The recipient number that is sent holds no "+", "-" or space, is
    never 10 characters long (a 10-character number gets the prefix "91"),
    is at most two characters longer than the input, and cleaning it again
    changes nothing. *)
Theorem phone_clean_normal_form (phone_number : string) :
  (forall c, c = "+"%char \/ c = "-"%char \/ c = " "%char ->
             remove_char c (phone_clean phone_number) = phone_clean phone_number)
  /\ String.length (phone_clean phone_number) <> 10
  /\ String.length (phone_clean phone_number) <= String.length phone_number + 2
  /\ phone_clean (phone_clean phone_number) = phone_clean phone_number.
Proof.
  split; [apply phone_clean_free|]. split; [apply phone_clean_length|]. split.
  - unfold phone_clean.
    pose proof (remove_char_length " " (remove_char "-" (remove_char "+" phone_number))).
    pose proof (remove_char_length "-" (remove_char "+" phone_number)).
    pose proof (remove_char_length "+" phone_number).
    destruct (String.length _ =? 10)%nat; [rewrite str_app_length; simpl|]; lia.
  - unfold phone_clean at 1.
    rewrite !phone_clean_free by auto.
    pose proof (phone_clean_length phone_number) as Hl.
    apply Nat.eqb_neq in Hl. now rewrite Hl.
Qed.

(** ** The retry loop *)

Section RetryFacts.

Variable post : nat -> outcome nat.

Local Abbreviation posts := (fun events => List.length (filter is_post events)).

Lemma retry_from_spec (remaining : nat) :
  forall attempt,
    let '(sent, events) := retry_from post attempt remaining in
    (sent = true ->
     exists i, i < remaining
               /\ accepted_status (post (attempt + i)) = true
               /\ (forall j, j < i -> accepted_status (post (attempt + j)) = false)
               /\ posts events = S i)
    /\ (sent = false ->
        (forall i, i < remaining -> accepted_status (post (attempt + i)) = false)
        /\ posts events = remaining
        /\ List.length events = 2 * remaining - 1).
Proof.
  induction remaining as [|r IH]; intros attempt; simpl.
  - split; [discriminate|]. intros _. repeat split. intros i Hi. lia.
  - destruct (accepted_status (post attempt)) eqn:Hok.
    + split; [|discriminate]. intros _. exists 0. rewrite Nat.add_0_r.
      repeat split; [lia|exact Hok|]. intros j Hj. lia.
    + specialize (IH (S attempt)).
      destruct (retry_from post (S attempt) r) as [sent events]. destruct IH as [IHt IHf].
      cbv beta iota.
      assert (Hposts : forall t,
                posts (Post attempt t
                       :: (if (0 <? r)%nat then [Sleep (2 ^ attempt)] else [])
                       ++ events)%list
                = S (posts events))
        by (intros t; destruct (0 <? r)%nat; reflexivity).
      split.
      * intros Hs. destruct (IHt Hs) as [i [Hi [Hacc [Hbefore Hn]]]].
        exists (S i). rewrite Hposts, Hn.
        replace (attempt + S i) with (S attempt + i) by lia.
        repeat split; [lia|exact Hacc|].
        intros j Hj. destruct j as [|j]; [now rewrite Nat.add_0_r|].
        replace (attempt + S j) with (S attempt + j) by lia. apply Hbefore. lia.
      * intros Hs. destruct (IHf Hs) as [Hnone [Hn Hlen]]. rewrite Hposts, Hn.
        repeat split.
        -- intros i Hi. destruct i as [|i]; [now rewrite Nat.add_0_r|].
           replace (attempt + S i) with (S attempt + i) by lia. apply Hnone. lia.
        -- cbn [List.length]. rewrite length_app, Hlen.
           destruct r as [|r]; simpl; lia.
Qed.

(** X15. [send_message] posts until the first accepted answer (status 200
    or 201) and then stops: it returns [True] exactly when one of the first
    [max_retries] attempts is accepted, having posted once per attempt up to
    that one; it returns [False] after exactly [max_retries] posts with a
    sleep between consecutive posts and none after the last. *)
Theorem send_message_retries (max_retries : nat) :
  let '(sent, events) := send_message post max_retries in
  (sent = true ->
   exists i, i < max_retries
             /\ accepted_status (post i) = true
             /\ (forall j, j < i -> accepted_status (post j) = false)
             /\ posts events = S i)
  /\ (sent = false ->
      (forall i, i < max_retries -> accepted_status (post i) = false)
      /\ posts events = max_retries
      /\ List.length events = 2 * max_retries - 1).
Proof. exact (retry_from_spec max_retries 0). Qed.

End RetryFacts.

(** ** The searchable text *)

Import Indexing.

Lemma lower_char_idem (c : ascii) : lower_char (lower_char c) = lower_char c.
Proof. destruct c as [[] [] [] [] [] [] [] []]; reflexivity. Qed.

Lemma lower_idem (s : string) : lower (lower s) = lower s.
Proof.
  induction s as [|c s IH]; simpl; [reflexivity|].
  now rewrite lower_char_idem, IH.
Qed.

Lemma lower_app (a b : string) : lower (a ++ b) = (lower a ++ lower b)%string.
Proof. induction a as [|c a IH]; simpl; [reflexivity|now rewrite IH]. Qed.

Lemma contains_lower (a s : string) :
  contains a s = true -> contains (lower a) (lower s) = true.
Proof.
  rewrite !contains_iff. intros [pre [post ->]].
  exists (lower pre), (lower post). now rewrite !lower_app.
Qed.

Lemma contains_in_concat (sep part : string) (parts : list string) :
  In part parts -> contains part (String.concat sep parts) = true.
Proof.
  induction parts as [|x xs IH]; [contradiction|].
  intros Hin. apply contains_iff. destruct xs as [|y ys].
  - destruct Hin as [->|[]]. exists "", "". simpl.
    clear IH. induction part as [|c part IH]; simpl; [reflexivity|now rewrite <- IH].
  - change (String.concat sep (x :: y :: ys))
      with (x ++ sep ++ String.concat sep (y :: ys))%string.
    destruct Hin as [->|Hin].
    + now exists "", (sep ++ String.concat sep (y :: ys))%string.
    + apply IH in Hin. apply contains_iff in Hin. destruct Hin as [pre [post Heq]].
      rewrite Heq.
      exists (x ++ sep ++ pre)%string, post. now rewrite !str_app_assoc.
Qed.

Lemma contains_empty (s : string) : contains "" s = true.
Proof. destruct s; reflexivity. Qed.

Lemma price_phrase_in_parts (d : stored_doc) : In (price_phrase d) (text_parts d).
Proof.
  unfold text_parts. apply in_or_app. left.
  do 11 right. left. reflexivity.
Qed.

(** X16. The searchable text of a document is in lower case, is never
    empty, and contains the lower-cased form of every part it is built
    from: the name, the brand, the joined colours, the price phrase and
    the others. *)
Theorem searchable_text_covers_parts (d : stored_doc) :
  lower (create_searchable_text d) = create_searchable_text d
  /\ create_searchable_text d <> ""
  /\ (forall part, In part (text_parts d) ->
        contains (lower part) (create_searchable_text d) = true).
Proof.
  assert (Hparts : forall part, In part (text_parts d) ->
            contains (lower part) (create_searchable_text d) = true).
  { intros part Hin. unfold create_searchable_text.
    destruct (nonempty part) eqn:Hn.
    - apply contains_lower, contains_in_concat, filter_In. now split.
    - destruct part; [apply contains_empty|discriminate]. }
  split; [apply lower_idem|]. split; [|exact Hparts].
  intros Hempty. specialize (Hparts _ (price_phrase_in_parts d)).
  rewrite Hempty in Hparts. unfold price_phrase in Hparts. simpl in Hparts.
  discriminate.
Qed.

(** ** The indexing pass *)

Lemma firstn_plus {A} (a b : nat) (l : list A) :
  firstn (a + b) l = (firstn a l ++ firstn b (skipn a l))%list.
Proof.
  revert l. induction a as [|a IH]; intros l; [reflexivity|].
  destruct l as [|x l]; simpl; [now rewrite firstn_nil|]. now rewrite IH.
Qed.

Lemma slice_step {A} (l : list A) (i k : nat) :
  Main.slice l i (i + k) = firstn k (skipn i l).
Proof. unfold Main.slice. f_equal. lia. Qed.

(** The batches, one after the other, are the list. *)
Lemma batches_cover {A} (l : list A) (k : nat) :
  0 < k ->
  concat (map (fun i => Main.slice l i (i + k)) (range_step (List.length l) k)) = l.
Proof.
  intros Hk. unfold range_step. rewrite map_map.
  assert (Hm : forall m,
            concat (map (fun j => Main.slice l (j * k) (j * k + k)) (seq 0 m))
            = firstn (m * k) l).
  { induction m as [|m IH]; [reflexivity|].
    rewrite seq_S, map_app, concat_app, IH. cbn [map concat plus].
    rewrite app_nil_r, slice_step.
    replace (S m * k) with (m * k + k) by lia. symmetry. apply firstn_plus. }
  rewrite Hm. apply firstn_all2.
  pose proof (Nat.div_mod_eq (List.length l + k - 1) k) as Hdiv.
  pose proof (Nat.mod_upper_bound (List.length l + k - 1) k ltac:(lia)) as Hmod.
  nia.
Qed.

(** A loop over batches is a loop over their concatenation. *)
Lemma fold_left_batches {A B I} (f : A -> B -> A) (batch : I -> list B)
  (indices : list I) :
  forall st, fold_left (fun st i => fold_left f (batch i) st) indices st
             = fold_left f (concat (map batch indices)) st.
Proof.
  induction indices as [|i indices IH]; intros st; [reflexivity|].
  simpl. now rewrite fold_left_app, IH.
Qed.

Section IndexFacts.

Variable embed_content : string -> outcome (list Q).

Local Abbreviation index_one := (Indexing.index_one embed_content).
Local Abbreviation indexed_form := (Indexing.indexed_form embed_content).
Local Abbreviation gets_indexed := (Indexing.gets_indexed embed_content).

Lemma update_one_skip (done rest : list stored_doc) (id : nat)
  (e : list Q) (t : string) :
  (forall x, In x done -> doc_id x <> id) ->
  update_one (done ++ rest) id e t = (done ++ update_one rest id e t)%list.
Proof.
  induction done as [|x done IH]; intros H; [reflexivity|].
  simpl. assert (Hx : (doc_id x =? id)%nat = false)
    by (apply Nat.eqb_neq, H; now left).
  rewrite Hx, IH; [reflexivity|]. intros y Hy. apply H. now right.
Qed.

Lemma doc_id_indexed_form (d : stored_doc) : doc_id (indexed_form d) = doc_id d.
Proof.
  unfold Indexing.indexed_form. destruct (unindexed d); [|reflexivity].
  destruct (VectorSearch.generate_text_embedding _ _); reflexivity.
Qed.

Lemma index_one_eq (state : list stored_doc * nat) (d : stored_doc) :
  index_one state d
  = match VectorSearch.generate_text_embedding embed_content
            (create_searchable_text d) with
    | [] => state
    | embedding =>
        (update_one (fst state) (doc_id d) embedding (create_searchable_text d),
         S (snd state))
    end.
Proof. reflexivity. Qed.

(** One document after the other: the documents already passed are [done],
    those to come are [rest]. *)
Lemma index_fold (rest : list stored_doc) :
  forall (done : list stored_doc) (n : nat),
    NoDup (map doc_id rest) ->
    (forall x y, In x done -> In y rest -> doc_id x <> doc_id y) ->
    fold_left index_one (filter unindexed rest) ((done ++ rest)%list, n)
    = ((done ++ map indexed_form rest)%list,
       n + List.length (filter gets_indexed rest)).
Proof.
  induction rest as [|d rest IH]; intros done n Hnd Hdis.
  - simpl. now rewrite Nat.add_0_r.
  - inversion Hnd as [|? ? Hd Hnd']; subst.
    assert (Hstep : forall d',
              doc_id d' = doc_id d ->
              forall x y, In x (done ++ [d'])%list -> In y rest ->
                          doc_id x <> doc_id y).
    { intros d' Hid x y Hx Hy. apply in_app_or in Hx. destruct Hx as [Hx|[<-|[]]].
      - apply Hdis; [exact Hx|now right].
      - rewrite Hid. intros Heq. apply Hd. rewrite Heq. now apply in_map. }
    cbn [filter map]. unfold Indexing.indexed_form at 1, Indexing.gets_indexed at 1.
    destruct (unindexed d) eqn:Hu.
    + cbn [fold_left]. rewrite index_one_eq. cbn [fst snd].
      destruct (VectorSearch.generate_text_embedding embed_content
                  (create_searchable_text d)) as [|q e] eqn:He.
      * cbn [TextSearch.is_nil negb andb].
        replace (done ++ d :: rest)%list with ((done ++ [d]) ++ rest)%list
          by (now rewrite <- app_assoc).
        rewrite (IH _ n Hnd' (Hstep d eq_refl)). now rewrite <- app_assoc.
      * cbn [TextSearch.is_nil negb andb List.length].
        rewrite update_one_skip
          by (intros x Hx; apply Hdis; [exact Hx|now left]).
        cbn [update_one]. rewrite Nat.eqb_refl.
        replace (done ++ set_embedding (q :: e) (create_searchable_text d) d :: rest)%list
          with ((done ++ [set_embedding (q :: e) (create_searchable_text d) d])
                ++ rest)%list
          by (now rewrite <- app_assoc).
        rewrite (IH _ (S n) Hnd'
                   (Hstep (set_embedding (q :: e) (create_searchable_text d) d) eq_refl)).
        rewrite <- app_assoc. cbn [app]. f_equal. lia.
    + cbn [andb].
      replace (done ++ d :: rest)%list with ((done ++ [d]) ++ rest)%list
        by (now rewrite <- app_assoc).
      rewrite (IH _ n Hnd' (Hstep d eq_refl)). now rewrite <- app_assoc.
Qed.

Lemma index_pass (collection : list stored_doc) (batch_size : Z) :
  NoDup (map doc_id collection) ->
  (0 < batch_size)%Z ->
  index_products embed_content collection batch_size
  = Returned (map indexed_form collection,
              List.length (filter gets_indexed collection)).
Proof.
  intros Hnd Hk. unfold index_products.
  pose proof (index_fold collection [] 0 Hnd (fun x y H => False_ind _ H)) as Hfold.
  cbn [app plus] in Hfold.
  destruct (filter unindexed collection) as [|p ps] eqn:Hp.
  - cbn [fold_left] in Hfold. now rewrite <- Hfold.
  - replace (batch_size =? 0)%Z with false by (symmetry; apply Z.eqb_neq; lia).
    replace (batch_size <? 0)%Z with false by (symmetry; apply Z.ltb_ge; lia).
    rewrite (fold_left_batches index_one), batches_cover by lia.
    now rewrite Hfold.
Qed.

(** X17. With distinct document ids and a positive batch size, the indexing
    pass is one pass over the collection, whatever the batch size: every
    document without an embedding gets the embedding of its searchable
    text, unless the embedding call fails or is empty; documents that had
    an embedding are untouched; the count is the number of documents that
    got one. *)
Theorem index_products_is_one_pass (collection : list stored_doc) (batch_size : Z) :
  NoDup (map doc_id collection) ->
  (0 < batch_size)%Z ->
  index_products embed_content collection batch_size
  = Returned (map indexed_form collection,
              List.length (filter gets_indexed collection)).
Proof. apply index_pass. Qed.

Lemma indexed_form_indexed (d : stored_doc) :
  negb (unindexed (indexed_form d)) = negb (unindexed d) || gets_indexed d.
Proof.
  unfold Indexing.indexed_form, Indexing.gets_indexed.
  destruct (unindexed d) eqn:Hu; [|now rewrite Hu].
  destruct (VectorSearch.generate_text_embedding _ _); [now rewrite Hu|reflexivity].
Qed.

Lemma indexed_count_after (collection : list stored_doc) :
  List.length (filter (fun d => negb (unindexed d)) (map indexed_form collection))
  = List.length (filter (fun d => negb (unindexed d)) collection)
    + List.length (filter gets_indexed collection).
Proof.
  induction collection as [|d ds IH]; [reflexivity|].
  cbn [map filter]. rewrite indexed_form_indexed.
  destruct (unindexed d) eqn:Hu; destruct (gets_indexed d) eqn:Hg;
    cbn [negb orb List.length]; try lia.
  unfold Indexing.gets_indexed in Hg. rewrite Hu in Hg. discriminate.
Qed.

(** X18. After the pass the statistics show the same number of documents
    and as many more indexed ones as the pass counted; when the embedding
    service answers every text with a vector, every document is indexed. *)
Theorem indexing_stats_after_pass
  (collection after : list stored_doc) (batch_size : Z) (indexed_count : nat) :
  NoDup (map doc_id collection) ->
  (0 < batch_size)%Z ->
  index_products embed_content collection batch_size
  = Returned (after, indexed_count) ->
  fst (get_indexing_stats after) = fst (get_indexing_stats collection)
  /\ snd (get_indexing_stats after)
     = snd (get_indexing_stats collection) + indexed_count
  /\ ((forall text,
         VectorSearch.generate_text_embedding embed_content text <> []) ->
      snd (get_indexing_stats after) = fst (get_indexing_stats after)).
Proof.
  intros Hnd Hk Hrun. rewrite (index_pass _ _ Hnd Hk) in Hrun.
  injection Hrun as <- <-. unfold get_indexing_stats. cbn [fst snd].
  split; [apply length_map|]. split; [apply indexed_count_after|].
  intros Hall. rewrite length_map.
  clear Hnd. induction collection as [|d ds IH]; [reflexivity|].
  cbn [map filter List.length]. rewrite indexed_form_indexed.
  unfold Indexing.gets_indexed.
  specialize (Hall (create_searchable_text d)).
  destruct (VectorSearch.generate_text_embedding embed_content
              (create_searchable_text d)); [congruence|].
  cbn [TextSearch.is_nil negb]. rewrite andb_true_r.
  destruct (unindexed d); cbn [negb orb List.length]; now rewrite IH.
Qed.

End IndexFacts.

Section LaterPassFacts.

(** The embedding service as it answers during a first pass and during a
    later one: a call that fails in one pass may succeed in the next. *)
Variable first_service later_service : string -> outcome (list Q).

Lemma indexed_form_twice (d : stored_doc) :
  indexed_form later_service (indexed_form first_service d)
  = if gets_indexed first_service d
    then indexed_form first_service d
    else indexed_form later_service d.
Proof.
  unfold indexed_form at 2 3, gets_indexed.
  destruct (unindexed d) eqn:Hu; [|reflexivity].
  destruct (VectorSearch.generate_text_embedding first_service _); reflexivity.
Qed.

Lemma gets_indexed_later (d : stored_doc) :
  gets_indexed later_service (indexed_form first_service d)
  = negb (gets_indexed first_service d) && gets_indexed later_service d.
Proof.
  unfold indexed_form, gets_indexed at 2.
  destruct (unindexed d) eqn:Hu; [|reflexivity].
  destruct (VectorSearch.generate_text_embedding first_service _); reflexivity.
Qed.

(** X19. A pass that follows another never touches a document the earlier
    pass indexed, and retries the embedding of exactly the documents still
    without one: with distinct ids and a positive batch size, the two
    passes leave every document as the first pass made it when that pass
    indexed it, and as the later pass makes it otherwise, and the later
    pass counts the documents the first did not index and it does.  In
    particular a later pass against a service that answers as before
    indexes nothing. *)
Theorem index_products_later_pass (collection : list stored_doc) (batch_size : Z) :
  NoDup (map doc_id collection) ->
  (0 < batch_size)%Z ->
  (pass <- index_products first_service collection batch_size ;;
   index_products later_service (fst pass) batch_size)
  = Returned
      (map (fun d => if gets_indexed first_service d
                     then indexed_form first_service d
                     else indexed_form later_service d) collection,
       List.length
         (filter (fun d => negb (gets_indexed first_service d)
                           && gets_indexed later_service d) collection))
  /\ ((forall text, later_service text = first_service text) ->
      (pass <- index_products first_service collection batch_size ;;
       index_products later_service (fst pass) batch_size)
      = Returned (map (indexed_form first_service) collection, 0)).
Proof.
  intros Hnd Hk.
  assert (Hnd' : NoDup (map doc_id (map (indexed_form first_service) collection))).
  { rewrite map_map.
    rewrite (map_ext _ doc_id (doc_id_indexed_form first_service)). exact Hnd. }
  assert (Hrun :
    (pass <- index_products first_service collection batch_size ;;
     index_products later_service (fst pass) batch_size)
    = Returned
        (map (fun d => if gets_indexed first_service d
                       then indexed_form first_service d
                       else indexed_form later_service d) collection,
         List.length
           (filter (fun d => negb (gets_indexed first_service d)
                             && gets_indexed later_service d) collection))).
  { rewrite (index_pass first_service _ _ Hnd Hk). cbn [bind fst].
    rewrite (index_pass later_service _ _ Hnd' Hk). f_equal. f_equal.
    - rewrite map_map. apply map_ext. intros d. apply indexed_form_twice.
    - clear Hnd Hnd'. induction collection as [|d ds IH]; [reflexivity|].
      cbn [map filter]. rewrite gets_indexed_later.
      destruct (negb _ && _); cbn [List.length]; now rewrite IH. }
  split; [exact Hrun|].
  intros Hsame. rewrite Hrun. f_equal.
  assert (Hgets : forall d, gets_indexed later_service d
                            = gets_indexed first_service d).
  { intros d. unfold gets_indexed, VectorSearch.generate_text_embedding.
    now rewrite Hsame. }
  assert (Hform : forall d, indexed_form later_service d
                            = indexed_form first_service d).
  { intros d. unfold indexed_form, VectorSearch.generate_text_embedding.
    now rewrite Hsame. }
  f_equal.
  - apply map_ext. intros d. rewrite Hform. now destruct (gets_indexed _ d).
  - clear Hnd Hnd' Hrun. induction collection as [|d ds IH]; [reflexivity|].
    cbn [filter]. rewrite Hgets.
    destruct (gets_indexed first_service d); cbn [negb andb]; exact IH.
Qed.

End LaterPassFacts.

Lemma three_docs_distinct : NoDup (map doc_id three_docs).
Proof.
  repeat constructor; simpl; intros H;
    repeat (destruct H as [H|H]; [discriminate|]); exact H.
Qed.

Lemma index_products_is_one_pass_witness :
  index_products unit_embedding three_docs 2
  = Returned (map (indexed_form unit_embedding) three_docs,
              List.length (filter (gets_indexed unit_embedding) three_docs)).
Proof.
  apply (index_products_is_one_pass unit_embedding three_docs 2).
  - exact three_docs_distinct.
  - reflexivity.
Defined.

Lemma index_products_later_pass_witness :
  (pass <- index_products embedding_down three_docs 2 ;;
   index_products unit_embedding (fst pass) 2)
  = Returned (map (indexed_form unit_embedding) three_docs, 2).
Proof.
  apply (proj1 (index_products_later_pass embedding_down unit_embedding
                  three_docs 2 three_docs_distinct eq_refl)).
Defined.

Lemma indexing_stats_after_pass_witness :
  fst (get_indexing_stats (map (indexed_form unit_embedding) three_docs))
  = fst (get_indexing_stats three_docs)
  /\ snd (get_indexing_stats (map (indexed_form unit_embedding) three_docs))
     = snd (get_indexing_stats three_docs) + 2
  /\ ((forall text,
         VectorSearch.generate_text_embedding unit_embedding text <> []) ->
      snd (get_indexing_stats (map (indexed_form unit_embedding) three_docs))
      = fst (get_indexing_stats (map (indexed_form unit_embedding) three_docs))).
Proof.
  apply (indexing_stats_after_pass unit_embedding three_docs
           (map (indexed_form unit_embedding) three_docs) 2 2).
  - exact three_docs_distinct.
  - reflexivity.
  - vm_compute; reflexivity.
Defined.

(** ** The ranking of hybrid results *)

Import IndexExamples.

Lemma sorted_filter {A} (R : A -> A -> Prop) (f : A -> bool) (l : list A) :
  StronglySorted R l -> StronglySorted R (filter f l).
Proof.
  induction 1 as [|x l Hs IH Hall]; simpl; [constructor|].
  destruct (f x); [|exact IH]. constructor; [exact IH|].
  apply Forall_forall. intros y Hy. apply filter_In in Hy.
  rewrite Forall_forall in Hall. now apply Hall.
Qed.

Lemma sorted_firstn {A} (R : A -> A -> Prop) (n : nat) (l : list A) :
  StronglySorted R l -> StronglySorted R (firstn n l).
Proof.
  intros Hs. revert n. induction Hs as [|x l Hs IH Hall]; intros n.
  - rewrite firstn_nil. constructor.
  - destruct n as [|n]; simpl; constructor; [apply IH|].
    apply Forall_forall. intros y Hy. apply In_firstn in Hy.
    rewrite Forall_forall in Hall. now apply Hall.
Qed.

Section RankingFacts.
Import VectorSearch.

Variable embed_content : string -> outcome (list Q).
Variable vectorSearch : list Q -> Z -> Z -> outcome (list search_result).
Variable regex_search_i : string -> string -> bool.

(** X20. The match stage and the limit keep the order of the vector stage:
    when the store hands over its candidates best score first, the hybrid
    results are best score first as well. *)
Theorem hybrid_search_keeps_ranking
  (query : string) (filters : option search_filters) (limit : Z) :
  (forall candidates,
     vectorSearch (generate_text_embedding embed_content query) 200 (limit * 3)%Z
     = Returned candidates ->
     StronglySorted best_first candidates) ->
  StronglySorted best_first
    (hybrid_search embed_content vectorSearch regex_search_i query filters limit).
Proof.
  intros Hstore. unfold hybrid_search.
  destruct (TextSearch.is_nil _); [constructor|].
  destruct (vectorSearch _ 200 (limit * 3)%Z) as [candidates|]; [|constructor].
  specialize (Hstore candidates eq_refl). cbn [bind]. unfold limit_stage.
  destruct (limit <=? 0)%Z; [constructor|]. cbn [try_except].
  apply sorted_firstn.
  destruct (TextSearch.is_nil _); [exact Hstore|].
  now apply sorted_filter.
Qed.

End RankingFacts.

Lemma ranked_candidates_sorted : StronglySorted best_first ranked_candidates.
Proof.
  unfold ranked_candidates, best_first.
  repeat (constructor; [|repeat (constructor; [simpl; vm_compute; discriminate|]);
                         constructor]).
  constructor.
Qed.

Lemma hybrid_search_keeps_ranking_witness :
  StronglySorted best_first
    (VectorSearch.hybrid_search unit_embedding (fixed_candidates ranked_candidates)
       (fun _ _ => true) "black watch" (Some black_filter) 2).
Proof.
  apply (hybrid_search_keeps_ranking unit_embedding
           (fixed_candidates ranked_candidates) (fun _ _ => true)
           "black watch" (Some black_filter) 2).
  intros candidates H. injection H as <-. exact ranked_candidates_sorted.
Defined.

Section HybridFilterFacts.

Variable embed_content : string -> outcome (list Q).
Variable vectorSearch : list Q -> Z -> Z -> outcome (list VectorSearch.search_result).
Variable regex_search_i : string -> string -> bool.

(** X28. Every result of a hybrid search is one of the candidates the
    vector stage returned when asked for [3 * limit] documents out of 200,
    and passes every entry of the match stage built from the filters:
    colour membership, brand regex, belt type and AI category. *)
Theorem hybrid_results_pass_filters
  (query : string) (filters : option VectorSearch.search_filters) (limit : Z)
  (r : VectorSearch.search_result) :
  In r (VectorSearch.hybrid_search embed_content vectorSearch regex_search_i
          query filters limit) ->
  (exists candidates,
     vectorSearch (VectorSearch.generate_text_embedding embed_content query)
       200 (limit * 3)%Z
     = Returned candidates /\ In r candidates)
  /\ forallb (fun c => VectorSearch.satisfies regex_search_i c (fst r))
       (VectorSearch.build_match_stage filters)
     = true.
Proof. apply hybrid_search_filtered. Qed.

End HybridFilterFacts.

Lemma hybrid_results_pass_filters_witness :
  (exists candidates,
     fixed_candidates ranked_candidates
       (VectorSearch.generate_text_embedding unit_embedding "black watch")
       200 (2 * 3)%Z
     = Returned candidates /\ In (cheap_doc, 0.7%Q) candidates)
  /\ forallb (fun c => VectorSearch.satisfies (fun _ _ => true) c
                         (fst (cheap_doc, 0.7%Q)))
       (VectorSearch.build_match_stage (Some black_filter))
     = true.
Proof.
  apply (hybrid_results_pass_filters unit_embedding
           (fixed_candidates ranked_candidates)
           (fun _ _ => true) "black watch" (Some black_filter) 2 (cheap_doc, 0.7%Q)).
  vm_compute. right; left; reflexivity.
Defined.

(** ** The formatted answer *)

Import Formatter.

Lemma format_fold (rs : list VectorSearch.search_result) :
  forall state,
    fold_left format_one rs state
    = ((fst state ++ map info_of rs)%list,
       (snd state ++ flat_map image_of rs)%list).
Proof.
  induction rs as [|r rs IH]; intros [infos images]; simpl.
  - now rewrite !app_nil_r.
  - rewrite IH. unfold format_one, image_of, info_of. cbn [fst snd].
    destruct (primary_image _); cbn [fst snd app];
      now rewrite <- !app_assoc.
Qed.

(** X21. The formatted answer lists the first three results, in order, and
    one image entry for each of them whose first image URL is not empty;
    the price of a product entry is the rupee sign followed by the stored
    price ("0" when there is none), the price of an image entry is the
    stored price itself; [total_found] is the number of all results, not of
    the three; without results the answer is the marker with [has_results]
    false. *)
Theorem format_product_response_caps_at_three
  (search_results : list VectorSearch.search_result) :
  let response := _format_product_response search_results in
  products response = map info_of (firstn 3 search_results)
  /\ images_to_send response = flat_map image_of (firstn 3 search_results)
  /\ has_results response = negb (TextSearch.is_nil search_results)
  /\ total_found response
     = (if TextSearch.is_nil search_results then None
        else Some (List.length search_results))
  /\ List.length (images_to_send response) <= List.length (products response) <= 3.
Proof.
  unfold _format_product_response.
  destruct search_results as [|r rs]; [cbn; repeat split; lia|].
  rewrite format_fold. cbn [fst snd app products images_to_send has_results
                            total_found TextSearch.is_nil negb].
  repeat split.
  - generalize (firstn 3 (r :: rs)). intros l.
    induction l as [|x l IH]; [simpl; lia|].
    cbn [flat_map map List.length]. rewrite length_app.
    unfold image_of at 1. destruct (primary_image _); simpl; lia.
  - rewrite length_map. apply firstn_le_length.
Qed.

Section AnswerFacts.

Variable embed_content : string -> outcome (list Q).
Variable vectorSearch : list Q -> Z -> Z -> outcome (list VectorSearch.search_result).
Variable regex_search_i : string -> string -> bool.

(** X22. A hybrid search called with [limit=5], as the classifier calls it,
    and then formatted never reports more than five products found and
    never sends more than three images. *)
Theorem hybrid_answer_sizes (query : string)
  (filters : option VectorSearch.search_filters) :
  let response :=
    _format_product_response
      (VectorSearch.hybrid_search embed_content vectorSearch regex_search_i
         query filters 5) in
  (forall n, total_found response = Some n -> 1 <= n <= 5)
  /\ List.length (images_to_send response) <= 3
  /\ List.length (products response) <= 3.
Proof.
  pose proof (hybrid_search_length embed_content vectorSearch regex_search_i
                query filters 5) as Hlen.
  set (results := VectorSearch.hybrid_search _ _ _ _ _ _) in *.
  unfold _format_product_response.
  destruct results as [|r rs] eqn:Hr.
  - cbn. repeat split; try lia; discriminate.
  - rewrite format_fold. cbn [fst snd app products images_to_send total_found].
    assert (Hp : List.length (map info_of (firstn 3 (r :: rs))) <= 3)
      by (rewrite length_map; apply firstn_le_length).
    assert (Hi : List.length (flat_map image_of (firstn 3 (r :: rs))) <= 3).
    { etransitivity; [|exact Hp]. rewrite length_map.
      generalize (firstn 3 (r :: rs)). intros l.
      induction l as [|x l IH]; [simpl; lia|].
      cbn [flat_map List.length]. rewrite length_app.
      unfold image_of at 1. destruct (primary_image _); simpl; lia. }
    repeat split; try assumption; injection H as <-; simpl in *; lia.
Qed.

End AnswerFacts.

(** ** Caps *)

Section CapFacts.

Variable text_to_double : string -> option Q.

(** X24. With a [max_results] other than 0 neither search returns more
    than [|max_results|] products, whatever the catalogue holds. *)
Theorem searches_respect_max_results
  (collection : list product) (max_results : Z) :
  max_results <> 0%Z ->
  (forall query category_filter min_price max_price results,
     search_products_by_text text_to_double collection query max_results
       category_filter min_price max_price = Returned results ->
     List.length results <= Z.abs_nat max_results)
  /\ (forall category lo hi,
        List.length
          (search_products_by_price_range text_to_double collection category
             lo hi max_results)
        <= Z.abs_nat max_results).
Proof.
  intros Hn.
  assert (Hlim : cursor_limit max_results = Some (Z.abs_nat max_results)).
  { unfold cursor_limit. apply Z.eqb_neq in Hn. now rewrite Hn. }
  split.
  - intros query category_filter min_price max_price results.
    unfold search_products_by_text.
    destruct (_ && _); [intros H; injection H as <-; simpl; lia|].
    destruct (is_nil _); [intros H; injection H as <-; simpl; lia|].
    unfold find. rewrite Hlim. apply scan_length.
  - intros category lo hi. unfold search_products_by_price_range, find.
    rewrite Hlim.
    destruct (TextSearch.scan _ _ _ _) as [rs|] eqn:Hscan; [|simpl; lia].
    simpl. now apply scan_length in Hscan.
Qed.

End CapFacts.

Lemma searches_respect_max_results_witness :
  (forall query category_filter min_price max_price results,
     search_products_by_text plain_decimal sixty_fossils query 10
       category_filter min_price max_price = Returned results ->
     List.length results <= Z.abs_nat 10)
  /\ (forall category lo hi,
        List.length
          (search_products_by_price_range plain_decimal sixty_fossils category
             lo hi 10)
        <= Z.abs_nat 10).
Proof.
  apply (searches_respect_max_results plain_decimal sixty_fossils 10).
  discriminate.
Defined.

Section HybridCapFacts.

Variable embed_content : string -> outcome (list Q).
Variable vectorSearch : list Q -> Z -> Z -> outcome (list VectorSearch.search_result).
Variable regex_search_i : string -> string -> bool.

(** X25. A hybrid search never returns more than [limit] results, and
    returns none when [limit] is zero or negative, whatever the vector
    stage hands over. *)
Theorem hybrid_search_at_most_limit (query : string)
  (filters : option VectorSearch.search_filters) (limit : Z) :
  (Z.of_nat (List.length
     (VectorSearch.hybrid_search embed_content vectorSearch regex_search_i
        query filters limit))
   <= Z.max 0 limit)%Z.
Proof. apply hybrid_search_length. Qed.

End HybridCapFacts.

(** ** The category that never reaches the query *)

Section CategoryFacts.

Variable text_to_double : string -> option Q.
Variable download : string -> option string.
Variable collection : list product.
Variable forward_media_with_base64 : image_product -> bool.

(** X26. The [category_key] handed to the batch sender has no effect: the
    request of the search service has no field for it, so the products
    counted are those of the same search without any category. *)
Theorem sender_ignores_category (keyword : string) (start_index batch_size : nat)
  (min_price max_price : option Q) (category_key : option string) :
  Main.send_product_images_v2 text_to_double download collection
    forward_media_with_base64 keyword start_index batch_size
    min_price max_price category_key
  = Main.send_product_images_v2 text_to_double download collection
      forward_media_with_base64 keyword start_index batch_size
      min_price max_price None
  /\ forall total sent,
       Main.send_product_images_v2 text_to_double download collection
         forward_media_with_base64 keyword start_index batch_size
         min_price max_price category_key = (true, total, sent) ->
       exists found,
         search_products_by_text text_to_double collection keyword 50 None
           min_price max_price = Returned found
         /\ total <= List.length found.
Proof.
  split; [reflexivity|]. intros total sent.
  unfold Main.send_product_images_v2.
  destruct (_ || _); [discriminate|].
  destruct (search_and_get_images _ _ _ _) as [[status detail| |answered n]|] eqn:Hresp;
    try discriminate.
  destruct answered as [|a answered]; [discriminate|].
  intros H. injection H as <- _.
  destruct (images_success_inv _ _ _ _ _ _ Hresp) as [found [Hfound Hans]].
  cbn [sr_query sr_max_results sr_min_price sr_max_price] in Hfound.
  exists found. split; [exact Hfound|].
  change (List.length (a :: answered) <= List.length found).
  rewrite Hans.
  etransitivity; [apply attach_images_length|].
  rewrite collect_images_length. apply filter_length_le.
Qed.

End CategoryFacts.

(** ** The exhaustion notice *)

Section NoticeFacts.

Variable next_batch :
  string -> nat -> nat -> option Q -> option Q -> option string -> bool * nat * nat.

(** X27. Whatever the stored context, the classified action and the outcome
    of the next batch, the text handler never sends the "you've seen all"
    message: the test that guards it contradicts the test around it. *)
Theorem exhaustion_notice_unreachable
  (action : string) (search_ctx : option Main.search_context) :
  existsb is_exhaustion_notice (Main.handle_text action next_batch search_ctx)
  = false.
Proof.
  destruct (existsb _ _) eqn:H; [|reflexivity]. exfalso.
  apply existsb_exists in H. destruct H as [e [Hin He]].
  destruct e as [|m| | |]; try discriminate.
  exact (seen_all_is_never_sent next_batch action search_ctx m Hin).
Qed.

End NoticeFacts.
